(** * PSYCHE-7 assessment client: state machine, leaderboard and gateway

    A shallow embedding of [src/App.tsx], [src/services/geminiService.ts]
    and the declarations of [types.ts].

    Conventions of the embedding.
    - React state ([useState]) is a record [App]; every handler is a function
      on that record, and a handler's setter calls are the record updates it
      performs (React applies the batch of one event atomically).
    - What the code leaves outstanding (timers, awaited gateway calls with
      the closure they captured) is the [pending] component of the record.
    - A JavaScript exception is a [Throw] completion.
    - Integers of the declared schema (scores, ids, milliseconds, indices)
      are [Z]; the progress percentage, which is fractional, is a rational
      and every arithmetic result on it goes through the rounding of the
      platform.
    - Strings are [string]; [length] counts code units.

    The first part gives the definitions, the second the lemmas and
    theorems, the third runs them on concrete inputs. *)

From Stdlib Require Import List ZArith QArith Qminmax String Ascii Bool Lia.
From Stdlib Require Import Sorted Permutation DecimalString Qround Lqa.
Import ListNotations.

Local Open Scope string_scope.
Local Open Scope list_scope.
Local Open Scope Z_scope.

(** * Part I: the embedding *)

(** ** JavaScript completions *)

(** A thrown value, as the [catch] clauses of the program read it:
    [err.message] may be missing. *)
Record JsError := mkError {
  err_name : string;
  err_message : option string
}.

(** [new Error(msg)] *)
Definition Error (msg : string) : JsError := mkError "Error" (Some msg).

Inductive Completion (A : Type) : Type :=
| Normal (a : A)
| Throw (e : JsError).
Arguments Normal {A} a.
Arguments Throw {A} e.

Definition bindC {A B} (c : Completion A) (k : A -> Completion B) : Completion B :=
  match c with
  | Normal a => k a
  | Throw e => Throw e
  end.

Notation "x <- c ;; k" := (bindC c (fun x => k))
  (at level 61, c at next level, right associativity).

(** [a || b] on a possibly missing string: the empty string is falsy. *)
Definition orElse (a : option string) (b : string) : string :=
  match a with
  | Some (String c s) => String c s
  | Some EmptyString => b
  | None => b
  end.

(** [xs[i]]: [undefined] (here [None]) outside [0 .. length-1]. *)
Definition js_index {A} (xs : list A) (i : Z) : option A :=
  if i <? 0 then None else nth_error xs (Z.to_nat i).

(** ** types.ts *)

Inductive AppState :=
| BOOTING | AUTH | MENU | GENERATING | ASSESSMENT
| ANALYZING | RESULT | LEADERBOARD | ERROR.

Inductive QuestionCount := SHORT | MEDIUM | FULL.

Definition QuestionCount_value (c : QuestionCount) : Z :=
  match c with
  | SHORT => 20
  | MEDIUM => 50
  | FULL => 100
  end.

Record Question := mkQuestion {
  q_id : Z;
  q_text : string;
  q_dimension : string;
  q_options : list string
}.

Record Answer := mkAnswer {
  questionId : Z;
  questionText : string;
  selectedOption : string;
  dimension : string;
  timeTaken : Z
}.

Record PersonalityReport := mkReport {
  subjectName : string;
  score : Z;
  dominantTraits : list string;
  strengths : list string;
  weaknesses : list string;
  behavioralTendencies : list string;
  riskIndicators : list string;
  confidenceScore : Z;
  generatedAt : string
}.

Record LeaderboardEntry := mkEntry {
  lb_username : string;
  lb_score : Z;
  lb_date : string;
  lb_id : string
}.

(** ** Leaderboard update ([finishAssessment], "Update Leaderboard") *)

Module Leaderboard.

(** [(a, b) => b.score - a.score] *)
Definition compareFn (a b : LeaderboardEntry) : Z := lb_score b - lb_score a.

(** [Array.prototype.sort(compareFn)].  The language fixes the result for a
    consistent comparator: sorted, and stable.  An element moves in front
    of another only when the comparator is positive on the pair in their
    current order, which is what this insertion does. *)
Fixpoint insert {A} (cmp : A -> A -> Z) (x : A) (l : list A) : list A :=
  match l with
  | [] => [x]
  | y :: l' => if 0 <? cmp x y then y :: insert cmp x l' else x :: y :: l'
  end.

Definition sort {A} (cmp : A -> A -> Z) (l : list A) : list A :=
  fold_right (insert cmp) [] l.

(** [.slice(0, n)] *)
Definition slice0 {A} (n : nat) (l : list A) : list A := firstn n l.

(** [[...leaderboard, newEntry].sort((a, b) => b.score - a.score).slice(0, 10)] *)
Definition updatedLB (leaderboard : list LeaderboardEntry)
                     (newEntry : LeaderboardEntry) : list LeaderboardEntry :=
  slice0 10 (sort compareFn (leaderboard ++ [newEntry])).

(** The seed installed by the mount effect when the storage key is absent. *)
Definition seed (date : string) : list LeaderboardEntry :=
  [ mkEntry "GHOST_01" 98 date "1";
    mkEntry "NEXUS" 92 date "2";
    mkEntry "CIPHER" 85 date "3" ].

(** Score descending. *)
Definition desc (a b : LeaderboardEntry) : Prop := lb_score b <= lb_score a.

(** The entries of one score, in list order. *)
Definition tied (s : Z) (l : list LeaderboardEntry) : list LeaderboardEntry :=
  filter (fun e => lb_score e =? s) l.

(** [prefix p l]: [p] is an initial segment of [l]. *)
Definition prefix {A} (p l : list A) : Prop := exists r, l = p ++ r.

(** The board after recording the entries [es] in turn. *)
Definition recordAll (leaderboard : list LeaderboardEntry)
                     (es : list LeaderboardEntry) : list LeaderboardEntry :=
  fold_left updatedLB es leaderboard.

(** *** The board against everything offered to it *)

(** For one score [s]: the board [L] holds all entries of that score among
    [all], or the earliest of them, and then it is full and holds nothing
    below [s]. *)
Definition tie_ok (s : Z) (L all : list LeaderboardEntry) : Prop :=
  tied s L = tied s all \/
  (prefix (tied s L) (tied s all) /\
   List.length L = 10%nat /\
   Forall (fun e => s <= lb_score e) L).

Definition board_inv (L all : list LeaderboardEntry) : Prop :=
  StronglySorted desc L /\ (List.length L <= 10)%nat /\ forall s, tie_ok s L all.

End Leaderboard.

(** ** Strings *)

Module Text.

(** White space of [String.prototype.trim] among 8-bit code units: TAB, LF,
    VT, FF, CR, SPACE and NO-BREAK SPACE. *)
Definition isWhiteSpace (c : ascii) : bool :=
  let n := nat_of_ascii c in
  (((9 <=? n) && (n <=? 13)) || (n =? 32) || (n =? 160))%nat.

Fixpoint trimStart (s : string) : string :=
  match s with
  | EmptyString => EmptyString
  | String c s' => if isWhiteSpace c then trimStart s' else s
  end.

Fixpoint trimEnd (s : string) : string :=
  match s with
  | EmptyString => EmptyString
  | String c s' =>
      match trimEnd s' with
      | EmptyString => if isWhiteSpace c then EmptyString else String c EmptyString
      | t => String c t
      end
  end.

(** [s.trim()] *)
Definition trim (s : string) : string := trimEnd (trimStart s).

(** [String.prototype.toUpperCase] on the ASCII letters. *)
Definition upper (c : ascii) : ascii :=
  let n := nat_of_ascii c in
  if ((97 <=? n) && (n <=? 122))%nat then ascii_of_nat (n - 32) else c.

Fixpoint asciiUpperCase (s : string) : string :=
  match s with
  | EmptyString => EmptyString
  | String c s' => String (upper c) (asciiUpperCase s')
  end.

(** [`${n}`] for an integer [n]. *)
Definition ofZ (n : Z) : string := NilZero.string_of_int (Z.to_int n).

End Text.

(** ** App.tsx: the component state *)

(** What an invocation leaves outstanding. *)
Inductive Task :=
| BootTimer
    (* setTimeout(() => setState(AUTH), 3500) *)
| Interval (ms : Z) (scale : Q)
    (* setInterval(() => setLoadingProgress(prev => Math.min(prev + Math.random() * scale, 90)), ms) *)
| GenerateCall (count : Z)
    (* await generateAssessmentQuestions(count) *)
| AssessmentTimer
    (* setTimeout(() => setState(ASSESSMENT), 500) *)
| AnalyzeCall (finalAnswers : list Answer) (user : string)
              (board : list LeaderboardEntry)
    (* await analyzePersonality(finalAnswers, username), with the [username]
       and [leaderboard] of the render that started it *)
| ResultTimer.
    (* setTimeout(() => setState(RESULT), 800) *)

Record App := mkApp {
  state : AppState;
  username : string;
  questions : list Question;
  answers : list Answer;
  currentQuestionIndex : Z;
  report : option PersonalityReport;
  errorMsg : string;
  loadingProgress : Q;
  leaderboard : list LeaderboardEntry;
  questionStartTime : Z;
  storage : option (list LeaderboardEntry);
  pending : list Task
}.

Definition set_state (v : AppState) (st : App) : App :=
  mkApp v (username st) (questions st) (answers st) (currentQuestionIndex st) (report st) (errorMsg st) (loadingProgress st) (leaderboard st) (questionStartTime st) (storage st) (pending st).

Definition set_username (v : string) (st : App) : App :=
  mkApp (state st) v (questions st) (answers st) (currentQuestionIndex st) (report st) (errorMsg st) (loadingProgress st) (leaderboard st) (questionStartTime st) (storage st) (pending st).

Definition set_questions (v : list Question) (st : App) : App :=
  mkApp (state st) (username st) v (answers st) (currentQuestionIndex st) (report st) (errorMsg st) (loadingProgress st) (leaderboard st) (questionStartTime st) (storage st) (pending st).

Definition set_answers (v : list Answer) (st : App) : App :=
  mkApp (state st) (username st) (questions st) v (currentQuestionIndex st) (report st) (errorMsg st) (loadingProgress st) (leaderboard st) (questionStartTime st) (storage st) (pending st).

Definition set_currentQuestionIndex (v : Z) (st : App) : App :=
  mkApp (state st) (username st) (questions st) (answers st) v (report st) (errorMsg st) (loadingProgress st) (leaderboard st) (questionStartTime st) (storage st) (pending st).

Definition set_report (v : option PersonalityReport) (st : App) : App :=
  mkApp (state st) (username st) (questions st) (answers st) (currentQuestionIndex st) v (errorMsg st) (loadingProgress st) (leaderboard st) (questionStartTime st) (storage st) (pending st).

Definition set_errorMsg (v : string) (st : App) : App :=
  mkApp (state st) (username st) (questions st) (answers st) (currentQuestionIndex st) (report st) v (loadingProgress st) (leaderboard st) (questionStartTime st) (storage st) (pending st).

Definition set_loadingProgress (v : Q) (st : App) : App :=
  mkApp (state st) (username st) (questions st) (answers st) (currentQuestionIndex st) (report st) (errorMsg st) v (leaderboard st) (questionStartTime st) (storage st) (pending st).

Definition set_leaderboard (v : list LeaderboardEntry) (st : App) : App :=
  mkApp (state st) (username st) (questions st) (answers st) (currentQuestionIndex st) (report st) (errorMsg st) (loadingProgress st) v (questionStartTime st) (storage st) (pending st).

Definition set_questionStartTime (v : Z) (st : App) : App :=
  mkApp (state st) (username st) (questions st) (answers st) (currentQuestionIndex st) (report st) (errorMsg st) (loadingProgress st) (leaderboard st) v (storage st) (pending st).

Definition set_storage (v : option (list LeaderboardEntry)) (st : App) : App :=
  mkApp (state st) (username st) (questions st) (answers st) (currentQuestionIndex st) (report st) (errorMsg st) (loadingProgress st) (leaderboard st) (questionStartTime st) v (pending st).

Definition set_pending (v : list Task) (st : App) : App :=
  mkApp (state st) (username st) (questions st) (answers st) (currentQuestionIndex st) (report st) (errorMsg st) (loadingProgress st) (leaderboard st) (questionStartTime st) (storage st) v.

Definition AppState_eqb (a b : AppState) : bool :=
  match a, b with
  | BOOTING, BOOTING | AUTH, AUTH | MENU, MENU | GENERATING, GENERATING
  | ASSESSMENT, ASSESSMENT | ANALYZING, ANALYZING | RESULT, RESULT
  | LEADERBOARD, LEADERBOARD | ERROR, ERROR => true
  | _, _ => false
  end.

Definition isInterval (t : Task) : bool :=
  match t with Interval _ _ => true | _ => false end.
Definition isBootTimer (t : Task) : bool :=
  match t with BootTimer => true | _ => false end.
Definition isGenerateCall (t : Task) : bool :=
  match t with GenerateCall _ => true | _ => false end.
Definition isAssessmentTimer (t : Task) : bool :=
  match t with AssessmentTimer => true | _ => false end.
Definition isAnalyzeCall (t : Task) : bool :=
  match t with AnalyzeCall _ _ _ => true | _ => false end.
Definition isResultTimer (t : Task) : bool :=
  match t with ResultTimer => true | _ => false end.

(** The first outstanding task of a kind, and what stays outstanding. *)
Fixpoint take (k : Task -> bool) (l : list Task) : option (Task * list Task) :=
  match l with
  | [] => None
  | t :: l' =>
      if k t then Some (t, l')
      else match take k l' with
           | Some (u, r) => Some (u, t :: r)
           | None => None
           end
  end.

(** [clearInterval(interval)] *)
Definition clearInterval (st : App) : App :=
  match take isInterval (pending st) with
  | Some (_, rest) => set_pending rest st
  | None => st
  end.

(** The [useState] initial values; [stored] is what [localStorage] holds
    under [psyche7_leaderboard] ([None]: the key is absent). *)
Definition initial (stored : option (list LeaderboardEntry)) : App :=
  mkApp BOOTING "" [] [] 0 None "" 0%Q [] 0 stored [].

(** The two mount effects: the boot timer, and the leaderboard load with its
    seed. *)
Definition mount (date : string) (st : App) : App :=
  let st := set_pending (pending st ++ [BootTimer]) st in
  match storage st with
  | Some stored => set_leaderboard stored st
  | None =>
      let seed := Leaderboard.seed date in
      set_storage (Some seed) (set_leaderboard seed st)
  end.

(** [handleLogin] *)
Definition handleLogin (st : App) : App :=
  if (2 <? String.length (Text.trim (username st)))%nat
  then set_state MENU st
  else st.

(** [startAssessment], up to the [await]. *)
Definition startAssessment (count : Z) (st : App) : App :=
  let st := set_state GENERATING st in
  let st := set_loadingProgress 0%Q st in
  let st := set_errorMsg "" st in
  set_pending (pending st ++ [Interval 200 5%Q; GenerateCall count]) st.

(** [startAssessment], after the [await] resolved with [q]. *)
Definition startAssessment_resolved (q : list Question) (st : App) : App :=
  let st := clearInterval st in
  let st := set_loadingProgress 100%Q st in
  let st := set_questions q st in
  let st := set_answers [] st in
  let st := set_currentQuestionIndex 0 st in
  set_pending (pending st ++ [AssessmentTimer]) st.

(** [startAssessment], the [catch] clause. *)
Definition startAssessment_rejected (err : JsError) (st : App) : App :=
  let st := clearInterval st in
  let st := set_errorMsg
              ("CONNECTION FAILED: " ++ orElse (err_message err) "UNKNOWN ERROR") st in
  set_state ERROR st.

(** [finishAssessment], up to the [await]; the call closes over the
    [username] and [leaderboard] of the render it runs in. *)
Definition finishAssessment (finalAnswers : list Answer) (st : App) : App :=
  let call := AnalyzeCall finalAnswers (username st) (leaderboard st) in
  let st := set_state ANALYZING st in
  let st := set_loadingProgress 0%Q st in
  set_pending (pending st ++ [Interval 150 2%Q; call]) st.

(** [finishAssessment], after the [await] resolved with [result]; [user] and
    [board] are the closure's, [rndId] is
    [Math.random().toString(36).substr(2, 9)] and [date] is
    [new Date().toISOString()]. *)
Definition finishAssessment_resolved
  (user : string) (board : list LeaderboardEntry)
  (result : PersonalityReport) (rndId date : string) (st : App) : App :=
  let st := clearInterval st in
  let st := set_loadingProgress 100%Q st in
  let st := set_report (Some result) st in
  let newEntry := mkEntry user (score result) date rndId in
  let updatedLB := Leaderboard.updatedLB board newEntry in
  let st := set_leaderboard updatedLB st in
  let st := set_storage (Some updatedLB) st in
  set_pending (pending st ++ [ResultTimer]) st.

(** [finishAssessment], the [catch] clause. *)
Definition finishAssessment_rejected (err : JsError) (st : App) : App :=
  let st := clearInterval st in
  let st := set_errorMsg
              ("ANALYSIS FAILED: " ++ orElse (err_message err) "DATA CORRUPTED") st in
  set_state ERROR st.

(** Reading [.id] of [undefined]. *)
Definition undefinedRead : JsError :=
  mkError "TypeError" (Some "Cannot read properties of undefined (reading 'id')").

(** [handleAnswer].  The completion says whether the handler returned or
    threw; the state beside it is the one its setter calls, up to that
    point, leave behind. *)
Definition handleAnswer (option : string) (now : Z) (st : App)
  : Completion unit * App :=
  let timeTaken := now - questionStartTime st in
  match js_index (questions st) (currentQuestionIndex st) with
  | None => (Throw undefinedRead, st)
  | Some currentQ =>
      let newAnswer :=
        mkAnswer (q_id currentQ) (q_text currentQ) option
                 (q_dimension currentQ) timeTaken in
      let st1 := set_answers (answers st ++ [newAnswer]) st in
      if currentQuestionIndex st <? Z.of_nat (List.length (questions st)) - 1
      then (Normal tt,
            set_currentQuestionIndex (currentQuestionIndex st + 1) st1)
      else (Normal tt, finishAssessment (answers st ++ [newAnswer]) st1)
  end.

(** [renderReport]: CLOSE DOSSIER. *)
Definition closeDossier (st : App) : App := set_state MENU st.

(** [renderError]: REBOOT SYSTEM. *)
Definition rebootSystem (st : App) : App := set_state MENU st.

(** The effect on [[currentQuestionIndex, state]]: the question timer
    restarts when either changed and the assessment is showing. *)
Definition commit (now : Z) (old new : App) : App :=
  if (negb (AppState_eqb (state old) (state new))
      || negb (currentQuestionIndex old =? currentQuestionIndex new))
     && AppState_eqb (state new) ASSESSMENT
  then set_questionStartTime now new
  else new.

(** What the component reacts to: user actions on the controls the current
    view renders, timers, interval callbacks and settled gateway calls. *)
Inductive Event :=
| BootElapsed
| Change (value : string)
| SubmitLogin
| SelectScan (count : QuestionCount)
| Tick (rnd : Q)
| QuestionsResolved (q : list Question)
| QuestionsRejected (err : JsError)
| AssessmentTimerElapsed
| ChooseOption (option : string)
| AnalysisResolved (result : PersonalityReport) (rndId date : string)
| AnalysisRejected (err : JsError)
| ResultTimerElapsed
| CloseDossier
| RebootSystem.

(** ** TerminalUI.tsx: the loading bar *)

Module TerminalUI.

(** [Math.round]: the nearest integer, a tie going up. *)
Definition Math_round (x : Q) : Z := Qfloor (x + (1 # 2)).

(** What [LoadingBar] puts on the screen: the caption, the percentage
    beside it and the width of the filled part, in percent of the track. *)
Record LoadingBarView := mkBar {
  caption : string;
  percent : Z;
  width : Q
}.

(** [LoadingBar({ progress, label })] *)
Definition LoadingBar (progress : Q) (label : option string) : LoadingBarView :=
  mkBar (orElse label "PROCESSING")
        (Math_round progress)
        (Qmin 100 (Qmax 0 progress)).

End TerminalUI.

(** ** The platform

    What the component takes from the JavaScript runtime and this
    development does not fix: how an exact arithmetic result is rounded to a
    number, and [String.prototype.toUpperCase]. *)

Class Platform := {
  fl : Q -> Q;
  toUpperCase : string -> string
}.

Section Client.

Context `{platform : Platform}.

(** The interval callback's update:
    [prev => Math.min(prev + (Math.random() * scale), 90)], with
    [Math.random() = rnd]. *)
Definition tick (scale prev rnd : Q) : Q :=
  Qmin (fl (prev + fl (rnd * scale))) 90.

(** [onChange={(e) => setUsername(e.target.value.toUpperCase())}] *)
Definition handleChange (value : string) (st : App) : App :=
  set_username (toUpperCase value) st.

(** The ACCESS TERMINAL button is the form's submit button;
    [disabled={username.length < 3}]. *)
Definition submitDisabled (st : App) : bool :=
  (String.length (username st) <? 3)%nat.

(** [renderAssessment] shows a button per option of the current question,
    and nothing when there are no questions. *)
Definition optionShown (option : string) (st : App) : bool :=
  match questions st with
  | [] => false
  | _ :: _ =>
      match js_index (questions st) (currentQuestionIndex st) with
      | Some q => existsb (String.eqb option) (q_options q)
      | None => false
      end
  end.

(** One reaction of the component at clock reading [now]; [None] when the
    current view and the outstanding tasks do not offer the event. *)
Definition step (now : Z) (ev : Event) (st : App) : option App :=
  match ev with
  | BootElapsed =>
      match take isBootTimer (pending st) with
      | Some (_, rest) =>
          Some (commit now st (set_state AUTH (set_pending rest st)))
      | None => None
      end
  | Change value =>
      if AppState_eqb (state st) AUTH
      then Some (handleChange value st) else None
  | SubmitLogin =>
      if AppState_eqb (state st) AUTH && negb (submitDisabled st)
      then Some (commit now st (handleLogin st)) else None
  | SelectScan c =>
      if AppState_eqb (state st) MENU
      then Some (commit now st (startAssessment (QuestionCount_value c) st))
      else None
  | Tick rnd =>
      match find isInterval (pending st) with
      | Some (Interval _ scale) =>
          if Qle_bool 0 rnd && negb (Qle_bool 1 rnd)
          then Some (set_loadingProgress
                       (tick scale (loadingProgress st) rnd) st)
          else None
      | _ => None
      end
  | QuestionsResolved q =>
      match take isGenerateCall (pending st) with
      | Some (_, rest) =>
          Some (commit now st (startAssessment_resolved q (set_pending rest st)))
      | None => None
      end
  | QuestionsRejected err =>
      match take isGenerateCall (pending st) with
      | Some (_, rest) =>
          Some (commit now st (startAssessment_rejected err (set_pending rest st)))
      | None => None
      end
  | AssessmentTimerElapsed =>
      match take isAssessmentTimer (pending st) with
      | Some (_, rest) =>
          Some (commit now st (set_state ASSESSMENT (set_pending rest st)))
      | None => None
      end
  | ChooseOption option =>
      if AppState_eqb (state st) ASSESSMENT && optionShown option st
      then Some (commit now st (snd (handleAnswer option now st)))
      else None
  | AnalysisResolved result rndId date =>
      match take isAnalyzeCall (pending st) with
      | Some (AnalyzeCall _ user board, rest) =>
          Some (commit now st
                  (finishAssessment_resolved user board result rndId date
                     (set_pending rest st)))
      | _ => None
      end
  | AnalysisRejected err =>
      match take isAnalyzeCall (pending st) with
      | Some (_, rest) =>
          Some (commit now st (finishAssessment_rejected err (set_pending rest st)))
      | None => None
      end
  | ResultTimerElapsed =>
      match take isResultTimer (pending st) with
      | Some (_, rest) =>
          Some (commit now st (set_state RESULT (set_pending rest st)))
      | None => None
      end
  | CloseDossier =>
      match AppState_eqb (state st) RESULT, report st with
      | true, Some _ => Some (commit now st (closeDossier st))
      | _, _ => None
      end
  | RebootSystem =>
      if AppState_eqb (state st) ERROR
      then Some (commit now st (rebootSystem st)) else None
  end.

(** A run: the events in turn, each with its clock reading. *)
Fixpoint run (evs : list (Z * Event)) (st : App) : option App :=
  match evs with
  | [] => Some st
  | (now, ev) :: evs' =>
      match step now ev st with
      | Some st' => run evs' st'
      | None => None
      end
  end.

(** The displayed progress after each of the interval callbacks [rnds]. *)
Fixpoint progressTrace (now : Z) (rnds : list Q) (st : App) : list Q :=
  match rnds with
  | [] => []
  | rnd :: rnds' =>
      match step now (Tick rnd) st with
      | Some st' => loadingProgress st' :: progressTrace now rnds' st'
      | None => []
      end
  end.

(** The displayed values of an interval with factor [scale], started at
    [prev], over the draws [rnds]. *)
Fixpoint simulate (scale prev : Q) (rnds : list Q) : list Q :=
  match rnds with
  | [] => []
  | rnd :: rnds' =>
      let v := tick scale prev rnd in v :: simulate scale v rnds'
  end.

(** ** What the claims speak of *)

(** [0 <= currentQuestionIndex <= questions.length] and
    [answers.length == currentQuestionIndex]. *)
Definition sessionOK (st : App) : Prop :=
  0 <= currentQuestionIndex st <= Z.of_nat (List.length (questions st)) /\
  Z.of_nat (List.length (answers st)) = currentQuestionIndex st.

(** The view against what is outstanding: each view has exactly the timers
    and calls its entry left behind, and the session is consistent whenever
    the assessment is showing or about to show. *)
Inductive Phase (st : App) : Prop :=
| PhBooting :
    state st = BOOTING -> pending st = [BootTimer] -> Phase st
| PhAuth :
    state st = AUTH -> pending st = [] -> Phase st
| PhMenu :
    state st = MENU -> pending st = [] -> Phase st
| PhGenerating ms scale count :
    state st = GENERATING ->
    pending st = [Interval ms scale; GenerateCall count] -> Phase st
| PhSettling :
    state st = GENERATING -> pending st = [AssessmentTimer] ->
    sessionOK st -> Phase st
| PhAssessment :
    state st = ASSESSMENT -> pending st = [] -> sessionOK st -> Phase st
| PhAnalyzing ms scale finalAnswers :
    state st = ANALYZING ->
    pending st = [Interval ms scale;
                  AnalyzeCall finalAnswers (username st) (leaderboard st)] ->
    Phase st
| PhReporting :
    state st = ANALYZING -> pending st = [ResultTimer] -> Phase st
| PhResult :
    state st = RESULT -> pending st = [] -> Phase st
| PhError :
    state st = ERROR -> pending st = [] -> Phase st.

(** The claim of C3 as the specification words it: called with no current
    question, the handler returns normally and changes nothing. *)
Definition silentWithoutQuestion : Prop :=
  forall option now st,
    js_index (questions st) (currentQuestionIndex st) = None ->
    handleAnswer option now st = (Normal tt, st).

(** The claim of C5 as the specification words it: from AUTH, a submission
    goes to MENU exactly when the username has 3 code units or more. *)
Definition loginByLength : Prop :=
  forall st,
    state st = AUTH ->
    ((String.length (username st) <= 2)%nat -> state (handleLogin st) = AUTH) /\
    ((3 <= String.length (username st))%nat -> state (handleLogin st) = MENU).

(** The cause shown for a thrown value: its message, unless that is missing
    or empty. *)
Definition cause (err : JsError) (fallback : string) : string :=
  match err_message err with
  | None => fallback
  | Some m => if String.eqb m "" then fallback else m
  end.

(** The session and leaderboard data of a state. *)
Definition sessionData (st : App) :=
  (questions st, answers st, currentQuestionIndex st, leaderboard st, storage st).

(** The interval callbacks [ticks], each with its clock reading. *)
Definition tickEvents (ticks : list (Z * Q)) : list (Z * Event) :=
  map (fun t => (fst t, Tick (snd t))) ticks.

(** The board shown and the board stored. *)
Definition boardData (st : App) := (leaderboard st, storage st).

(** The board is in order, holds at most 10 entries, and is what the storage
    holds. *)
Definition boardStored (st : App) : Prop :=
  StronglySorted Leaderboard.desc (leaderboard st) /\
  (List.length (leaderboard st) <= 10)%nat /\
  storage st = Some (leaderboard st).

(** What the storage may hold at the mount: nothing, or a board written by
    an earlier session. *)
Definition validStorage (stored : option (list LeaderboardEntry)) : Prop :=
  match stored with
  | None => True
  | Some l => StronglySorted Leaderboard.desc l /\ (List.length l <= 10)%nat
  end.

(** What is used of the rounding of JavaScript numbers: it is monotone, and
    it leaves 0, 90 and its own results as they are (they are numbers
    already).  Exact arithmetic is the instance [fl x = x]. *)
Definition rounding : Prop :=
  (forall x y, (x <= y)%Q -> (fl x <= fl y)%Q) /\
  (fl 0 == 0)%Q /\ (fl 90 == 90)%Q /\
  (forall x, (fl (fl x) == fl x)%Q).

(** A draw of [Math.random()]. *)
Definition drawn (rnd : Q) : Prop := (0 <= rnd)%Q /\ (rnd < 1)%Q.

(** ** The views *)

(** What [renderAssessment] shows: the progress bar, the panel title, the
    question and one button per option (the letters in front of the options
    are left out). *)
Record AssessmentView := mkAssessmentView {
  bar : TerminalUI.LoadingBarView;
  title : string;
  prompt : string;
  buttons : list string
}.

(** [renderAssessment]: [null] (here [None]) without questions; reading
    [q.text] of a missing question throws. *)
Definition renderAssessment (st : App) : Completion (option AssessmentView) :=
  match questions st with
  | [] => Normal None
  | _ :: _ =>
      match js_index (questions st) (currentQuestionIndex st) with
      | None =>
          Throw (mkError "TypeError"
                   (Some "Cannot read properties of undefined (reading 'text')"))
      | Some q =>
          let len := Z.of_nat (List.length (questions st)) in
          let progress :=
            fl (fl (inject_Z (currentQuestionIndex st) / inject_Z len) * 100) in
          Normal (Some (mkAssessmentView
            (TerminalUI.LoadingBar progress (Some "EVALUATION PROGRESS"))
            ("QUERY " ++ Text.ofZ (currentQuestionIndex st + 1) ++ "/" ++ Text.ofZ len)
            (q_text q)
            (q_options q)))
      end
  end.

(** [renderLoading(label)]: the bar over the simulated progress. *)
Definition renderLoading (label : string) (st : App) : TerminalUI.LoadingBarView :=
  TerminalUI.LoadingBar (loadingProgress st) (Some label).

(** What the component puts on the screen, as far as it comes from the
    component state: the text of the input and whether the submit button is
    disabled; the rows of the rankings table (key, agent, stability); the
    loading bar and the progress the log line prints; the assessment view;
    the dossier; the failure message.  The fixed texts and the random
    reference codes of the loading and dossier views are left out. *)
Inductive Screen :=
| BootScreen
| AuthScreen (codename : string) (disabled : bool)
| MenuScreen (rankings : list (string * string * Z))
| LoadingScreen (progressBar : TerminalUI.LoadingBarView) (logged : Q)
| AssessmentScreen (view : AssessmentView)
| ReportScreen (dossier : PersonalityReport)
| ErrorScreen (message : string)
| Blank.

(** [renderMenu]: the rows of GLOBAL RANKINGS. *)
Definition renderMenu (st : App) : Screen :=
  MenuScreen (map (fun entry => (lb_id entry, lb_username entry, lb_score entry))
                  (leaderboard st)).

(** [renderReport]: [null] without a report. *)
Definition renderReport (st : App) : Screen :=
  match report st with
  | None => Blank
  | Some r => ReportScreen r
  end.

(** The component's [return]: one view per state, none for LEADERBOARD. *)
Definition render (st : App) : Completion Screen :=
  match state st with
  | BOOTING => Normal BootScreen
  | AUTH => Normal (AuthScreen (username st) (submitDisabled st))
  | MENU => Normal (renderMenu st)
  | GENERATING =>
      Normal (LoadingScreen (renderLoading "GENERATING NEURAL PATHWAYS..." st)
                            (loadingProgress st))
  | ASSESSMENT =>
      match renderAssessment st with
      | Normal (Some v) => Normal (AssessmentScreen v)
      | Normal None => Normal Blank
      | Throw e => Throw e
      end
  | ANALYZING =>
      Normal (LoadingScreen (renderLoading "COMPILING PSYCHOMETRIC DATA..." st)
                            (loadingProgress st))
  | RESULT => Normal (renderReport st)
  | LEADERBOARD => Normal Blank
  | ERROR => Normal (ErrorScreen (errorMsg st))
  end.

(** What can be observed of a state: the screen, the outstanding timers and
    gateway calls with what they were started with, and the storage. *)
Definition observable (st : App)
  : Completion Screen * list Task * option (list LeaderboardEntry) :=
  (render st, pending st, storage st).

(** The state with the session data erased: no questions, no answers, the
    index back at 0. *)
Definition discardSession (st : App) : App :=
  set_currentQuestionIndex 0 (set_answers [] (set_questions [] st)).

(** Between a recovery and the next generation that resolves: the menu, a
    generation in progress, or the failure view again. *)
Definition awaitingQuestions (st : App) : Prop :=
  (state st = MENU /\ pending st = []) \/
  (state st = ERROR /\ pending st = []) \/
  (state st = GENERATING /\
   exists ms scale count, pending st = [Interval ms scale; GenerateCall count]).

(** [b] is [a], or [a] with the session data erased while no view or
    handler can read it. *)
Definition sessionErased (a b : App) : Prop :=
  a = b \/ (awaitingQuestions a /\ b = discardSession a).

(** ** What the further properties speak of *)

(** The component can reach [st] from its mount. *)
Definition reachable (st : App) : Prop :=
  exists date stored evs, run evs (mount date (initial stored)) = Some st.

(** An outstanding gateway call. *)
Definition isCall (t : Task) : bool := isGenerateCall t || isAnalyzeCall t.

(** The answer [a] is an answer to the question [q]: it copies the
    question's id, text and dimension and selects one of its options. *)
Definition answered (a : Answer) (q : Question) : Prop :=
  questionId a = q_id q /\ questionText a = q_text q /\
  dimension a = q_dimension q /\ In (selectedOption a) (q_options q).

(** The answers so far answer the questions before the current one, in
    order; and the current index is inside the question set, unless that is
    empty. *)
Definition transcript (st : App) : Prop :=
  Forall2 answered (answers st)
          (firstn (Z.to_nat (currentQuestionIndex st)) (questions st)) /\
  (questions st <> [] ->
   currentQuestionIndex st < Z.of_nat (List.length (questions st))).

(** What each outstanding call was started with: a question count of the
    menu, or one answer per question. *)
Definition callSound (st : App) (t : Task) : Prop :=
  match t with
  | GenerateCall count => In count [20; 50; 100]
  | AnalyzeCall finalAnswers _ _ =>
      Forall2 answered finalAnswers (questions st) /\ questions st <> []
  | _ => True
  end.

(** The error message is one of the two prefixes followed by a non-empty
    cause. *)
Definition errorWorded (msg : string) : Prop :=
  exists c m,
    msg = ("CONNECTION FAILED: " ++ String c m)%string \/
    msg = ("ANALYSIS FAILED: " ++ String c m)%string.

(** What holds of every reachable state besides [Phase]. *)
Record Sound (st : App) : Prop := mkSound {
  sound_stored : storage st = Some (leaderboard st);
  sound_report :
    state st = RESULT \/ In ResultTimer (pending st) -> report st <> None;
  sound_login :
    state st <> BOOTING -> state st <> AUTH ->
    (3 <= String.length (Text.trim (username st)))%nat;
  sound_error : state st = ERROR -> errorWorded (errorMsg st);
  sound_session :
    state st = ASSESSMENT \/ In AssessmentTimer (pending st) -> transcript st;
  sound_calls : forall t, In t (pending st) -> callSound st t
}.

(** The events that are actions of the user on a control. *)
Definition isUserEvent (ev : Event) : bool :=
  match ev with
  | Change _ | SubmitLogin | SelectScan _ | ChooseOption _
  | CloseDossier | RebootSystem => true
  | _ => false
  end.

(** The events that settle a gateway call. *)
Definition isSettlement (ev : Event) : bool :=
  match ev with
  | QuestionsResolved _ | QuestionsRejected _
  | AnalysisResolved _ _ _ | AnalysisRejected _ => true
  | _ => false
  end.

Definition isResolution (ev : Event) : bool :=
  match ev with
  | QuestionsResolved _ | AnalysisResolved _ _ _ => true
  | _ => false
  end.

(** No button of the assessment view can be pressed: there is no question,
    or the current one has no option. *)
Definition noOption (st : App) : Prop :=
  match questions st with
  | [] => True
  | _ :: _ =>
      match js_index (questions st) (currentQuestionIndex st) with
      | Some q => q_options q = []
      | None => True
      end
  end.

(** The clock readings of the events never go back, from [t] on. *)
Fixpoint ordered (t : Z) (evs : list (Z * Event)) : Prop :=
  match evs with
  | [] => True
  | (now, _) :: evs' => t <= now /\ ordered now evs'
  end.

(** At clock reading [t]: the question timer was started in the past, and
    no elapsed time recorded or sent for analysis is negative. *)
Definition timed (t : Z) (st : App) : Prop :=
  (state st = ASSESSMENT -> questionStartTime st <= t) /\
  Forall (fun a => 0 <= timeTaken a) (answers st) /\
  (forall finalAnswers user board,
     In (AnalyzeCall finalAnswers user board) (pending st) ->
     Forall (fun a => 0 <= timeTaken a) finalAnswers).

(** The display is a percentage, and at most 90 while an interval runs;
    the factor of a running interval is not negative. *)
Definition displayBounded (st : App) : Prop :=
  (0 <= loadingProgress st)%Q /\ (loadingProgress st <= 100)%Q /\
  (existsb isInterval (pending st) = true -> (loadingProgress st <= 90)%Q) /\
  (forall ms scale, In (Interval ms scale) (pending st) -> (0 <= scale)%Q).

End Client.

(** ** geminiService.ts: the gateway *)

Module Gateway.

Local Set Warnings "-register-all".

(** A decoded JSON document.  Numbers are the integers (what both response
    schemas ask for); an object is its properties in order, one per key. *)
Inductive JSON :=
| JNull
| JBool (b : bool)
| JNumber (n : Z)
| JString (s : string)
| JArray (items : list JSON)
| JObject (props : list (string * JSON)).

(** The response schemas the gateway sends ([Type.*] of the client
    library); the [description] strings are left out. *)
Inductive Schema :=
| TInteger
| TString
| TArray (items : Schema)
| TObject (properties : list (string * Schema)) (required : list string).

Record GenerateContentParameters := mkRequest {
  model : string;
  contents : string;
  systemInstruction : string;
  responseMimeType : string;
  responseSchema : Schema
}.

Record GenerateContentResponse := mkResponse {
  text : option string
}.

(** [obj[key]] *)
Fixpoint lookup (key : string) (props : list (string * JSON)) : option JSON :=
  match props with
  | [] => None
  | (k, v) :: props' => if String.eqb k key then Some v else lookup key props'
  end.

(** [obj[key] = value]: an existing property keeps its place. *)
Fixpoint assign (props : list (string * JSON)) (key : string) (value : JSON)
  : list (string * JSON) :=
  match props with
  | [] => [(key, value)]
  | (k, v) :: props' =>
      if String.eqb k key then (k, value) :: props'
      else (k, v) :: assign props' key value
  end.

Fixpoint indexed {A} (f : A -> JSON) (i : Z) (xs : list A) : list (string * JSON) :=
  match xs with
  | [] => []
  | x :: xs' => (Text.ofZ i, f x) :: indexed f (i + 1) xs'
  end.

(** The own enumerable properties [{...v}] copies: those of an object, the
    indexed elements of an array or of a string, none of anything else. *)
Definition spread (v : JSON) : list (string * JSON) :=
  match v with
  | JObject props => fold_left (fun acc kv => assign acc (fst kv) (snd kv)) props []
  | JArray items => indexed (fun x => x) 0 items
  | JString s =>
      indexed (fun c => JString (String c EmptyString)) 0 (list_ascii_of_string s)
  | JNull | JBool _ | JNumber _ => []
  end.

(** [try { body } catch (error) { handler }] *)
Definition tryCatch {A} (body : Completion A) (handler : JsError -> Completion A)
  : Completion A :=
  match body with
  | Normal a => Normal a
  | Throw error => handler error
  end.

(** The sentences of the generation prompt that fix the output; the rest of
    the prompt (dimensions, tone, variety) is left out. *)
Definition questionInstruction (count : Z) : string :=
  "Generate " ++ Text.ofZ count
  ++ " distinct, high-quality multiple-choice questions. "
  ++ "Provide 4 options for each question.".

Definition questionSchema : Schema :=
  TArray (TObject [("id", TInteger); ("text", TString);
                   ("dimension", TString); ("options", TArray TString)]
                  ["id"; "text"; "dimension"; "options"]).

(** The sentences of the analysis prompt that fix the output. *)
Definition analysisInstruction : string :=
  "Analyze the provided question/answer pairs to build a comprehensive personality dossier.".

Definition analysisSchema : Schema :=
  TObject [("score", TInteger); ("dominantTraits", TArray TString);
           ("strengths", TArray TString); ("weaknesses", TArray TString);
           ("behavioralTendencies", TArray TString);
           ("riskIndicators", TArray TString); ("confidenceScore", TInteger)]
          ["score"; "dominantTraits"; "strengths"; "weaknesses";
           "behavioralTendencies"; "riskIndicators"; "confidenceScore"].

Section Service.

(** [process.env.API_KEY] *)
Variable API_KEY : option string.

(** [ai.models.generateContent]: the external model, awaited. *)
Variable generateContent : GenerateContentParameters -> Completion GenerateContentResponse.

(** [JSON.parse] and [JSON.stringify]. *)
Variable JSON_parse : string -> Completion JSON.
Variable JSON_stringify : JSON -> string.

(** [new Date().toISOString()] when the analysis returns. *)
Variable isoNow : string.

(** [getAIClient]: the key must be present and non-empty. *)
Definition getAIClient : Completion unit :=
  match API_KEY with
  | Some (String _ _) => Normal tt
  | Some EmptyString | None => Throw (Error "API_KEY not found in environment.")
  end.

(** [generateAssessmentQuestions]; the completion is how the promise
    settles. *)
Definition generateAssessmentQuestions (count : Z) : Completion JSON :=
  ai <- getAIClient ;;
  tryCatch
    (response <- generateContent
        (mkRequest "gemini-flash-latest"
           ("Generate " ++ Text.ofZ count ++ " psychological assessment questions.")
           (questionInstruction count) "application/json" questionSchema) ;;
     match text response with
     | Some (String c s) => JSON_parse (String c s)
     | Some EmptyString | None => Throw (Error "No data received from construct.")
     end)
    (fun error => Throw error).

(** [answers.map(a => ({dimension, question, choice, timeTakenMs}))] *)
Definition inputRows (answers : list Answer) : JSON :=
  JArray (map (fun a => JObject [("dimension", JString (dimension a));
                                 ("question", JString (questionText a));
                                 ("choice", JString (selectedOption a));
                                 ("timeTakenMs", JNumber (timeTaken a))])
              answers).

(** [analyzePersonality] *)
Definition analyzePersonality (answers : list Answer) (username : string)
  : Completion JSON :=
  ai <- getAIClient ;;
  let inputData := JSON_stringify (inputRows answers) in
  tryCatch
    (response <- generateContent
        (mkRequest "gemini-flash-latest"
           ("Analyze this subject data: " ++ inputData)
           analysisInstruction "application/json" analysisSchema) ;;
     match text response with
     | Some (String c s) =>
         analysis <- JSON_parse (String c s) ;;
         Normal (JObject (assign (assign (spread analysis)
                                         "subjectName" (JString username))
                                 "generatedAt" (JString isoNow)))
     | Some EmptyString | None => Throw (Error "Analysis Protocol Failed.")
     end)
    (fun error => Throw error).

End Service.

(** *** The typed reading of a payload ([as Question[]]) *)

Definition asString (v : JSON) : option string :=
  match v with JString s => Some s | _ => None end.

Definition asNumber (v : JSON) : option Z :=
  match v with JNumber n => Some n | _ => None end.

Fixpoint traverse {A B} (f : A -> option B) (xs : list A) : option (list B) :=
  match xs with
  | [] => Some []
  | x :: xs' =>
      match f x, traverse f xs' with
      | Some y, Some ys => Some (y :: ys)
      | _, _ => None
      end
  end.

Definition asStrings (v : JSON) : option (list string) :=
  match v with JArray items => traverse asString items | _ => None end.

Definition asQuestion (v : JSON) : option Question :=
  match v with
  | JObject props =>
      match lookup "id" props, lookup "text" props,
            lookup "dimension" props, lookup "options" props with
      | Some i, Some t, Some d, Some o =>
          match asNumber i, asString t, asString d, asStrings o with
          | Some i, Some t, Some d, Some o => Some (mkQuestion i t d o)
          | _, _, _, _ => None
          end
      | _, _, _, _ => None
      end
  | _ => None
  end.

(** The payload read at the type the gateway declares for it; [None] when
    it does not have that type. *)
Definition asQuestions (v : JSON) : option (list Question) :=
  match v with JArray items => traverse asQuestion items | _ => None end.

(** [count] questions, each with exactly 4 options. *)
Definition wellFormed (count : Z) (qs : list Question) : Prop :=
  Z.of_nat (List.length qs) = count /\
  Forall (fun q => List.length (q_options q) = 4%nat) qs.

(** What a response schema asks of a payload: the type of each value and
    the presence of the required keys.  Neither schema bounds the number of
    elements of an array. *)
Fixpoint conforms (sch : Schema) (v : JSON) : bool :=
  match sch, v with
  | TInteger, JNumber _ => true
  | TString, JString _ => true
  | TArray items, JArray vs => forallb (conforms items) vs
  | TObject properties required, JObject props =>
      forallb (fun k => match lookup k props with
                        | Some _ => true
                        | None => false
                        end) required
      && forallb (fun ks => let '(k, sch') := ks in
                            match lookup k props with
                            | Some v' => conforms sch' v'
                            | None => true
                            end) properties
  | _, _ => false
  end.

(** The request [generateAssessmentQuestions] sends. *)
Definition questionRequest (count : Z) : GenerateContentParameters :=
  mkRequest "gemini-flash-latest"
    ("Generate " ++ Text.ofZ count ++ " psychological assessment questions.")
    (questionInstruction count) "application/json" questionSchema.

(** The claim of C2 as the specification words it: a generation that
    resolves for a valid count returns that many questions, each with 4
    options. *)
Definition generationYieldsCount
  (API_KEY : option string)
  (generateContent : GenerateContentParameters -> Completion GenerateContentResponse)
  (JSON_parse : string -> Completion JSON) : Prop :=
  forall count v,
    In count [20; 50; 100] ->
    generateAssessmentQuestions API_KEY generateContent JSON_parse count = Normal v ->
    exists qs, asQuestions v = Some qs /\ wellFormed count qs.

(** *** [JSON.parse] on a fragment of JSON

    A recursive-descent reader of JSON texts: white space, the three
    literals, integers, strings with the two-character escapes, arrays and
    objects.  Numbers with a fraction or an exponent and [\u] escapes are
    outside the fragment and are refused.  It stands for [JSON.parse]
    wherever a concrete text is decoded below. *)

Definition dquote : ascii := "034"%char.
Definition backslash : ascii := "092"%char.

Definition syntaxError : JsError :=
  mkError "SyntaxError" (Some "Unexpected token in JSON").

Definition isJsonSpace (c : ascii) : bool :=
  let n := nat_of_ascii c in
  ((n =? 32) || (n =? 9) || (n =? 10) || (n =? 13))%nat.

Definition isDigit (c : ascii) : bool :=
  let n := nat_of_ascii c in ((48 <=? n) && (n <=? 57))%nat.

Fixpoint skipSpace (s : string) : string :=
  match s with
  | String c s' => if isJsonSpace c then skipSpace s' else s
  | EmptyString => EmptyString
  end.

(** [expect w s]: [s] without its prefix [w]. *)
Fixpoint expect (w s : string) : option string :=
  match w, s with
  | EmptyString, _ => Some s
  | String a w', String b s' => if Ascii.eqb a b then expect w' s' else None
  | String _ _, EmptyString => None
  end.

Definition unescape (c : ascii) : option ascii :=
  if Ascii.eqb c dquote then Some dquote
  else if Ascii.eqb c backslash then Some backslash
  else if Ascii.eqb c "/" then Some "/"%char
  else if Ascii.eqb c "n" then Some "010"%char
  else if Ascii.eqb c "t" then Some "009"%char
  else if Ascii.eqb c "r" then Some "013"%char
  else if Ascii.eqb c "b" then Some "008"%char
  else if Ascii.eqb c "f" then Some "012"%char
  else None.

(** The characters of a string literal, after its opening quote. *)
Fixpoint stringBody (s : string) : option (string * string) :=
  match s with
  | EmptyString => None
  | String c s' =>
      if Ascii.eqb c dquote then Some (EmptyString, s')
      else if Ascii.eqb c backslash then
        match s' with
        | String e s'' =>
            match unescape e, stringBody s'' with
            | Some c', Some (body, rest) => Some (String c' body, rest)
            | _, _ => None
            end
        | EmptyString => None
        end
      else if (nat_of_ascii c <? 32)%nat then None
      else match stringBody s' with
           | Some (body, rest) => Some (String c body, rest)
           | None => None
           end
  end.

Fixpoint digits (acc : Z) (s : string) : Z * string :=
  match s with
  | String c s' =>
      if isDigit c then digits (10 * acc + Z.of_nat (nat_of_ascii c - 48)) s'
      else (acc, s)
  | EmptyString => (acc, s)
  end.

(** An integer numeral: no leading zero, no fraction, no exponent. *)
Definition numeral (s : string) : option (Z * string) :=
  match s with
  | String c s' =>
      if isDigit c then
        let (n, rest) := digits 0 s in
        let plain :=
          match rest with
          | String d _ =>
              negb (Ascii.eqb d "." || Ascii.eqb d "e" || Ascii.eqb d "E")
          | EmptyString => true
          end in
        let leading :=
          Ascii.eqb c "0" && negb (String.eqb s' rest) in
        if plain && negb leading then Some (n, rest) else None
      else None
  | EmptyString => None
  end.

(** The elements of an array after the first [value], up to the closing
    bracket. *)
Fixpoint elements (value : string -> option (JSON * string)) (n : nat)
                  (s : string) : option (list JSON * string) :=
  match n with
  | O => None
  | S n' =>
      match value s with
      | Some (v, rest) =>
          match skipSpace rest with
          | String c r =>
              if Ascii.eqb c "," then
                match elements value n' r with
                | Some (vs, r') => Some (v :: vs, r')
                | None => None
                end
              else if Ascii.eqb c "]" then Some ([v], r)
              else None
          | EmptyString => None
          end
      | None => None
      end
  end.

(** The members of an object, up to the closing brace; a repeated key
    keeps its last value. *)
Fixpoint members (value : string -> option (JSON * string)) (n : nat)
                 (acc : list (string * JSON)) (s : string)
  : option (list (string * JSON) * string) :=
  match n with
  | O => None
  | S n' =>
      match skipSpace s with
      | String q s1 =>
          if Ascii.eqb q dquote then
            match stringBody s1 with
            | Some (key, s2) =>
                match skipSpace s2 with
                | String colon s3 =>
                    if Ascii.eqb colon ":" then
                      match value s3 with
                      | Some (v, s4) =>
                          match skipSpace s4 with
                          | String c r =>
                              if Ascii.eqb c "," then
                                members value n' (assign acc key v) r
                              else if Ascii.eqb c "}" then
                                Some (assign acc key v, r)
                              else None
                          | EmptyString => None
                          end
                      | None => None
                      end
                    else None
                | EmptyString => None
                end
            | None => None
            end
          else None
      | EmptyString => None
      end
  end.

Fixpoint value (fuel : nat) (s : string) : option (JSON * string) :=
  match fuel with
  | O => None
  | S fuel' =>
      match skipSpace s with
      | EmptyString => None
      | String c s' =>
          if Ascii.eqb c "n" then
            option_map (fun r => (JNull, r)) (expect "ull" s')
          else if Ascii.eqb c "t" then
            option_map (fun r => (JBool true, r)) (expect "rue" s')
          else if Ascii.eqb c "f" then
            option_map (fun r => (JBool false, r)) (expect "alse" s')
          else if Ascii.eqb c dquote then
            option_map (fun br => (JString (fst br), snd br)) (stringBody s')
          else if Ascii.eqb c "[" then
            match skipSpace s' with
            | String d r =>
                if Ascii.eqb d "]" then Some (JArray [], r)
                else option_map (fun vr => (JArray (fst vr), snd vr))
                       (elements (value fuel') (String.length s') s')
            | EmptyString => None
            end
          else if Ascii.eqb c "{" then
            match skipSpace s' with
            | String d r =>
                if Ascii.eqb d "}" then Some (JObject [], r)
                else option_map (fun mr => (JObject (fst mr), snd mr))
                       (members (value fuel') (String.length s') [] s')
            | EmptyString => None
            end
          else if Ascii.eqb c "-" then
            option_map (fun nr => (JNumber (- fst nr), snd nr)) (numeral s')
          else
            option_map (fun nr => (JNumber (fst nr), snd nr))
                       (numeral (String c s'))
      end
  end.

Definition parse (s : string) : Completion JSON :=
  match value (S (String.length s)) s with
  | Some (v, rest) =>
      match skipSpace rest with
      | EmptyString => Normal v
      | String _ _ => Throw syntaxError
      end
  | None => Throw syntaxError
  end.

(** A quoted JSON string, for writing texts down. *)
Definition quoted (s : string) : string :=
  String dquote s ++ String dquote EmptyString.

(** *** [JSON.stringify] on the same fragment *)

Fixpoint escaped (s : string) : string :=
  match s with
  | EmptyString => EmptyString
  | String c s' =>
      if Ascii.eqb c dquote then String backslash (String dquote (escaped s'))
      else if Ascii.eqb c backslash
      then String backslash (String backslash (escaped s'))
      else if Ascii.eqb c "010" then String backslash (String "n" (escaped s'))
      else if Ascii.eqb c "009" then String backslash (String "t" (escaped s'))
      else if Ascii.eqb c "013" then String backslash (String "r" (escaped s'))
      else String c (escaped s')
  end.

Fixpoint stringify (v : JSON) : string :=
  match v with
  | JNull => "null"
  | JBool true => "true"
  | JBool false => "false"
  | JNumber n => Text.ofZ n
  | JString s => quoted (escaped s)
  | JArray items =>
      "[" ++ (fix go (l : list JSON) : string :=
                match l with
                | [] => ""
                | [x] => stringify x
                | x :: l' => (stringify x ++ "," ++ go l')%string
                end) items ++ "]"
  | JObject props =>
      "{" ++ (fix go (l : list (string * JSON)) : string :=
                match l with
                | [] => ""
                | [(k, x)] => (quoted (escaped k) ++ ":" ++ stringify x)%string
                | (k, x) :: l' =>
                    (quoted (escaped k) ++ ":" ++ stringify x ++ "," ++ go l')%string
                end) props ++ "}"
  end.

(** The key is missing or empty. *)
Definition keyless (API_KEY : option string) : Prop :=
  API_KEY = None \/ API_KEY = Some "".

(** The response carries no text, or an empty one. *)
Definition textless (r : GenerateContentResponse) : Prop :=
  text r = None \/ text r = Some "".

(** The request [analyzePersonality] sends. *)
Definition analysisRequest (JSON_stringify : JSON -> string)
                           (answers : list Answer) : GenerateContentParameters :=
  mkRequest "gemini-flash-latest"
    ("Analyze this subject data: " ++ JSON_stringify (inputRows answers))
    analysisInstruction "application/json" analysisSchema.

End Gateway.

(** ** The gateway and the component together *)

Module Wiring.

Import Gateway.

(** The payload read as a [PersonalityReport], the type [analyzePersonality]
    declares for it; [None] when it does not have that type. *)
Definition asReport (v : JSON) : option PersonalityReport :=
  match v with
  | JObject props =>
      match lookup "subjectName" props, lookup "score" props,
            lookup "dominantTraits" props, lookup "strengths" props,
            lookup "weaknesses" props, lookup "behavioralTendencies" props,
            lookup "riskIndicators" props, lookup "confidenceScore" props,
            lookup "generatedAt" props with
      | Some n, Some s, Some d, Some st, Some w, Some b, Some r, Some c, Some g =>
          match asString n, asNumber s, asStrings d, asStrings st, asStrings w,
                asStrings b, asStrings r, asNumber c, asString g with
          | Some n, Some s, Some d, Some st, Some w, Some b, Some r, Some c, Some g =>
              Some (mkReport n s d st w b r c g)
          | _, _, _, _, _, _, _, _, _ => None
          end
      | _, _, _, _, _, _, _, _, _ => None
      end
  | _ => None
  end.

(** How a settled [generateAssessmentQuestions] reaches [startAssessment]:
    a rejection goes to the [catch] clause, a payload of the declared type
    is the [q] after the [await]. *)
Definition generationSettled (c : Completion JSON) : option Event :=
  match c with
  | Throw err => Some (QuestionsRejected err)
  | Normal v => option_map QuestionsResolved (asQuestions v)
  end.

(** How a settled [analyzePersonality] reaches [finishAssessment]. *)
Definition analysisSettled (c : Completion JSON) (rndId date : string)
  : option Event :=
  match c with
  | Throw err => Some (AnalysisRejected err)
  | Normal v =>
      option_map (fun result => AnalysisResolved result rndId date) (asReport v)
  end.

End Wiring.

(** ** Sample data for the worked runs *)

Module Samples.

Import Gateway.

(** Exact arithmetic: every result is a number already. *)
Definition exact (x : Q) : Q := x.

(** The platform of the worked runs: exact arithmetic and the ASCII
    upper-casing. *)
#[export] Instance exactAscii : Platform := {|
  fl := exact;
  toUpperCase := Text.asciiUpperCase
|}.

Definition q1 : Question :=
  mkQuestion 1 "When plans collapse, you" "Stress Resilience"
             ["regroup"; "withdraw"; "improvise"; "delegate"].

Definition q2 : Question :=
  mkQuestion 2 "Rules exist to be" "Moral Flexibility"
             ["followed"; "tested"; "rewritten"; "ignored"].

Definition sampleReport : PersonalityReport :=
  mkReport "CIPHER9" 92 ["Guarded"] [] [] [] [] 71 "2026-01-01T00:00:00.000Z".

(** Boot, log in as [cipher9], pick the 20-question scan. *)
Definition toGenerating : list (Z * Event) :=
  [ (3500, BootElapsed); (4000, Change "cipher9"); (4100, SubmitLogin);
    (5000, SelectScan SHORT); (5200, Tick (1 # 2)); (5400, Tick (9 # 10)) ].

(** ... the gateway answers with two questions and the assessment shows. *)
Definition toAssessment : list (Z * Event) :=
  toGenerating ++ [ (6000, QuestionsResolved [q1; q2]);
                    (6500, AssessmentTimerElapsed) ].

(** ... both are answered, and the analysis is rejected. *)
Definition toError : list (Z * Event) :=
  toAssessment ++ [ (7000, ChooseOption "withdraw");
                    (9000, ChooseOption "tested");
                    (9150, Tick (1 # 3));
                    (9500, AnalysisRejected (Error "timeout")) ].

Definition start : App := mount "2026-01-01T00:00:00.000Z" (initial None).

(** The menu, reached by booting and logging in. *)
Definition atMenu : App :=
  set_state MENU (set_username "CIPHER9" (set_pending [] start)).

Definition sampleDraws : list Q := [1 # 2; 0 # 1; 999 # 1000; 1 # 4].

(** A gateway whose model answers every request with the text [reply]. *)
Definition answering (reply : string)
  : GenerateContentParameters -> Completion GenerateContentResponse :=
  fun _ => Normal (mkResponse (Some reply)).

(** A payload that matches the question schema: one question, two options. *)
Definition shortReply : string :=
  "[{" ++ quoted "id" ++ ":1," ++ quoted "text" ++ ":" ++ quoted "Rules exist to be"
  ++ "," ++ quoted "dimension" ++ ":" ++ quoted "Moral Flexibility"
  ++ "," ++ quoted "options" ++ ":[" ++ quoted "followed" ++ "," ++ quoted "tested"
  ++ "]}]".

(** A payload that brings a subject name and a time stamp of its own. *)
Definition intrudingReply : string :=
  "{" ++ quoted "score" ++ ":7," ++ quoted "subjectName" ++ ":" ++ quoted "INTRUDER"
  ++ "," ++ quoted "generatedAt" ++ ":" ++ quoted "never" ++ "}".

Definition oneAnswer : list Answer :=
  [mkAnswer 1 "When plans collapse, you" "withdraw" "Stress Resilience" 500].

(** Both questions are answered: the analysis is outstanding. *)
Definition toAnalyzing : list (Z * Event) :=
  toAssessment ++ [ (7000, ChooseOption "withdraw");
                    (9000, ChooseOption "tested") ].

(** ... it resolves, and the dossier shows. *)
Definition toResult : list (Z * Event) :=
  toAnalyzing ++ [ (9500, AnalysisResolved sampleReport "k3x9q0zr1"
                            "2026-01-01T00:00:09.500Z");
                   (10300, ResultTimerElapsed) ].

(** The gateway answers with no question at all. *)
Definition toEmptyAssessment : list (Z * Event) :=
  toGenerating ++ [ (6000, QuestionsResolved []);
                    (6500, AssessmentTimerElapsed) ].

(** After a recovery: a quick scan that resolves with one question. *)
Definition afterRecovery : list (Z * Event) :=
  [ (11000, SelectScan SHORT); (11200, Tick (1 # 2));
    (12000, QuestionsResolved [q2]); (12500, AssessmentTimerElapsed) ].

(** The answers of the run [toAnalyzing]. *)
Definition twoAnswers : list Answer :=
  [ mkAnswer 1 "When plans collapse, you" "withdraw" "Stress Resilience" 500;
    mkAnswer 2 "Rules exist to be" "tested" "Moral Flexibility" 2000 ].

(** A payload of the report type. *)
Definition fullReply : string :=
  "{" ++ quoted "score" ++ ":92,"
  ++ quoted "dominantTraits" ++ ":[" ++ quoted "Guarded" ++ "],"
  ++ quoted "strengths" ++ ":[]," ++ quoted "weaknesses" ++ ":[],"
  ++ quoted "behavioralTendencies" ++ ":[]," ++ quoted "riskIndicators" ++ ":[],"
  ++ quoted "confidenceScore" ++ ":71}".

End Samples.

(** * Part II: the theory *)

(** ** The leaderboard update *)

Module LeaderboardFacts.

Import Leaderboard.

(** *** The sort *)

Lemma insert_perm {A} (cmp : A -> A -> Z) x l :
  Permutation (insert cmp x l) (x :: l).
Proof.
  induction l as [|y l IH]; simpl; [reflexivity|].
  destruct (0 <? cmp x y); [|reflexivity].
  rewrite IH. apply perm_swap.
Qed.

Lemma sort_perm {A} (cmp : A -> A -> Z) l : Permutation (sort cmp l) l.
Proof.
  induction l as [|x l IH]; simpl; [reflexivity|].
  rewrite insert_perm. now constructor.
Qed.

Lemma sort_length {A} (cmp : A -> A -> Z) l : List.length (sort cmp l) = List.length l.
Proof. apply Permutation_length, sort_perm. Qed.

Lemma insert_sorted x l :
  StronglySorted desc l -> StronglySorted desc (insert compareFn x l).
Proof.
  induction 1 as [|y l Hs IH Hy]; simpl.
  - repeat constructor.
  - unfold compareFn at 1. destruct (Z.ltb_spec 0 (lb_score y - lb_score x)).
    + constructor; [exact IH|].
      eapply Permutation_Forall; [symmetry; apply insert_perm|].
      constructor; [unfold desc; lia | exact Hy].
    + constructor; [now constructor|].
      constructor; [unfold desc; lia|].
      eapply Forall_impl; [|exact Hy]. unfold desc. intros; lia.
Qed.

Lemma sort_sorted l : StronglySorted desc (sort compareFn l).
Proof.
  induction l as [|x l IH]; simpl; [constructor | now apply insert_sorted].
Qed.

(** Stability: the sort never reorders entries of equal score. *)
Lemma tied_insert s x l :
  tied s (insert compareFn x l) = tied s (x :: l).
Proof.
  induction l as [|y l IH]; [reflexivity|].
  simpl insert. unfold compareFn at 1.
  destruct (Z.ltb_spec 0 (lb_score y - lb_score x)); [|reflexivity].
  change (tied s (y :: insert compareFn x l))
    with (if lb_score y =? s then y :: tied s (insert compareFn x l)
          else tied s (insert compareFn x l)).
  rewrite IH. unfold tied. simpl.
  destruct (Z.eqb_spec (lb_score y) s), (Z.eqb_spec (lb_score x) s);
    try reflexivity; lia.
Qed.

Lemma tied_sort s l : tied s (sort compareFn l) = tied s l.
Proof.
  induction l as [|x l IH]; [reflexivity|].
  simpl sort. rewrite tied_insert. unfold tied in *. simpl. now rewrite IH.
Qed.

(** A board that is already in order is left as it is. *)
Lemma sort_sorted_id l : StronglySorted desc l -> sort compareFn l = l.
Proof.
  induction 1 as [|x l Hs IH Hx]; [reflexivity|].
  simpl. rewrite IH. destruct l as [|y l]; [reflexivity|].
  simpl. unfold compareFn at 1. inversion Hx as [|? ? Hd _]; subst.
  unfold desc in Hd. destruct (Z.ltb_spec 0 (lb_score y - lb_score x)); [lia|reflexivity].
Qed.

(** *** Truncation *)

Lemma firstn_sorted n l :
  StronglySorted desc l -> StronglySorted desc (firstn n l).
Proof.
  intros H. revert n. induction H as [|x l Hs IH Hx]; intros [|n]; simpl;
    try constructor; auto.
  rewrite <- (firstn_skipn n l) in Hx. now apply Forall_app in Hx.
Qed.

Lemma in_firstn {A} (a : A) n l : In a (firstn n l) -> In a l.
Proof.
  intros H. rewrite <- (firstn_skipn n l). apply in_or_app. now left.
Qed.

Lemma tied_app s l1 l2 : tied s (l1 ++ l2) = tied s l1 ++ tied s l2.
Proof. apply filter_app. Qed.

Lemma sorted_app_inv l1 l2 :
  StronglySorted desc (l1 ++ l2) ->
  forall a b, In a l1 -> In b l2 -> lb_score b <= lb_score a.
Proof.
  induction l1 as [|x l1 IH]; simpl; intros H a b Ha Hb; [contradiction|].
  inversion H as [|? ? Hs Hx]; subst. destruct Ha as [->|Ha].
  - rewrite Forall_forall in Hx. apply Hx, in_or_app. now right.
  - now apply IH.
Qed.

(** Cutting a sorted board at [n] either keeps every entry of score [s],
    or keeps the earliest of them, and then the cut is full and holds
    nothing below [s]. *)
Lemma tied_firstn s n l :
  StronglySorted desc l ->
  tied s (firstn n l) = tied s l \/
  (prefix (tied s (firstn n l)) (tied s l) /\
   List.length (firstn n l) = n /\
   Forall (fun e => s <= lb_score e) (firstn n l)).
Proof.
  intros Hs. rewrite <- (firstn_skipn n l) in Hs.
  destruct (tied s (skipn n l)) as [|b r] eqn:Hr.
  - left. rewrite <- (firstn_skipn n l) at 2. rewrite tied_app, Hr.
    now rewrite app_nil_r.
  - right. assert (Hb : In b (skipn n l) /\ lb_score b = s).
    { assert (Hin : In b (tied s (skipn n l))) by (rewrite Hr; now left).
      unfold tied in Hin. apply filter_In in Hin. destruct Hin as [? ?].
      split; [assumption | now apply Z.eqb_eq]. }
    destruct Hb as [Hb Hbs]. split; [|split].
    + exists (b :: r). rewrite <- (firstn_skipn n l) at 1.
      now rewrite tied_app, Hr.
    + apply firstn_length_le.
      destruct (Nat.le_gt_cases n (List.length l)) as [|Hlt]; [assumption|].
      rewrite skipn_all2 in Hb by lia. contradiction.
    + apply Forall_forall. intros a Ha. subst s.
      now apply (sorted_app_inv _ _ Hs).
Qed.

Lemma prefix_trans {A} (p q l : list A) : prefix p q -> prefix q l -> prefix p l.
Proof.
  intros [r1 ->] [r2 ->]. exists (r1 ++ r2). now rewrite app_assoc.
Qed.

Lemma prefix_app_r {A} (p l r : list A) : prefix p l -> prefix p (l ++ r).
Proof.
  intros [r1 ->]. exists (r1 ++ r). now rewrite app_assoc.
Qed.

Lemma tie_ok_prefix s L all : tie_ok s L all -> prefix (tied s L) (tied s all).
Proof.
  intros [->|[H _]]; [exists []; now rewrite app_nil_r | exact H].
Qed.

Lemma sorted_snoc s L e :
  StronglySorted desc L -> Forall (fun a => s <= lb_score a) L ->
  lb_score e <= s -> StronglySorted desc (L ++ [e]).
Proof.
  induction 1 as [|x L Hs IH Hx]; intros Hall He; simpl.
  - repeat constructor.
  - inversion Hall as [|? ? Hxs Hall']; subst.
    constructor; [now apply IH|].
    apply Forall_app. split; [exact Hx|].
    constructor; [unfold desc; lia | constructor].
Qed.

Lemma tie_step_eq s L all e :
  tied s L = tied s all -> tie_ok s (updatedLB L e) (all ++ [e]).
Proof.
  intros Heq. unfold updatedLB, slice0, tie_ok.
  assert (Hx : tied s (sort compareFn (L ++ [e])) = tied s (all ++ [e])).
  { now rewrite tied_sort, !tied_app, Heq. }
  rewrite <- Hx. apply tied_firstn, sort_sorted.
Qed.

Lemma tie_step_full s L all e :
  StronglySorted desc L -> prefix (tied s L) (tied s all) ->
  List.length L = 10%nat -> Forall (fun a => s <= lb_score a) L ->
  tie_ok s (updatedLB L e) (all ++ [e]).
Proof.
  intros Hs Hp Hlen Hall. right. unfold updatedLB, slice0.
  destruct (Z.le_gt_cases (lb_score e) s) as [Hle|Hgt].
  - (* the new entry sorts last and is cut off *)
    rewrite sort_sorted_id by (now apply (sorted_snoc s)).
    assert (Hcut : firstn 10 (L ++ [e]) = L).
    { rewrite firstn_app, Hlen, Nat.sub_diag. simpl firstn at 2.
      rewrite app_nil_r, <- Hlen. apply firstn_all. }
    rewrite Hcut. repeat split; try assumption.
    rewrite tied_app. now apply prefix_app_r.
  - assert (Hx : tied s (sort compareFn (L ++ [e])) = tied s L).
    { rewrite tied_sort, tied_app. unfold tied at 2. simpl.
      destruct (Z.eqb_spec (lb_score e) s); [lia | now rewrite app_nil_r]. }
    repeat split.
    + apply prefix_trans with (tied s L).
      * rewrite <- Hx. apply tie_ok_prefix with (L := firstn 10 (sort compareFn (L ++ [e]))).
        unfold tie_ok. apply tied_firstn, sort_sorted.
      * rewrite tied_app. now apply prefix_app_r.
    + apply firstn_length_le. rewrite sort_length, length_app, Hlen. simpl. lia.
    + apply Forall_forall. intros a Ha. apply in_firstn in Ha.
      apply (Permutation_in _ (sort_perm compareFn (L ++ [e]))) in Ha.
      apply in_app_or in Ha. destruct Ha as [Ha|[<-|[]]]; [|lia].
      rewrite Forall_forall in Hall. now apply Hall.
Qed.

Lemma updatedLB_sorted L e : StronglySorted desc (updatedLB L e).
Proof. apply firstn_sorted, sort_sorted. Qed.

Lemma updatedLB_length L e : (List.length (updatedLB L e) <= 10)%nat.
Proof. apply firstn_le_length. Qed.

(** The first update orders whatever the board held before. *)
Lemma board_inv_first L e : board_inv (updatedLB L e) (L ++ [e]).
Proof.
  repeat split; [apply updatedLB_sorted | apply updatedLB_length |].
  intros s. now apply tie_step_eq.
Qed.

Lemma board_inv_step L all e :
  board_inv L all -> board_inv (updatedLB L e) (all ++ [e]).
Proof.
  intros (Hs & Hlen & Ht).
  repeat split; [apply updatedLB_sorted | apply updatedLB_length |].
  intros s. destruct (Ht s) as [Heq|(Hp & Hfull & Hall)].
  - now apply tie_step_eq.
  - now apply tie_step_full.
Qed.

Lemma board_inv_recordAll es : forall L all,
  board_inv L all -> board_inv (recordAll L es) (all ++ es).
Proof.
  induction es as [|e es IH]; intros L all H; simpl.
  - now rewrite app_nil_r.
  - replace (all ++ e :: es) with ((all ++ [e]) ++ es)
      by (now rewrite <- app_assoc).
    apply IH. now apply board_inv_step.
Qed.

(** C1.  After any non-empty sequence of record operations, whatever the
    board held before, the stored collection has at most 10 entries, is in
    descending score order, and for every score the entries of that score on
    the board are an initial segment, in insertion order, of the entries of
    that score offered so far (the earlier board first, then the recorded
    entries in turn): ties are broken by insertion order, in placement and in
    who is cut off. *)
Theorem leaderboard_invariant
  (leaderboard : list LeaderboardEntry) (e : LeaderboardEntry)
  (es : list LeaderboardEntry) :
  let final := recordAll leaderboard (e :: es) in
  (List.length final <= 10)%nat /\
  StronglySorted desc final /\
  forall s, prefix (tied s final) (tied s (leaderboard ++ e :: es)).
Proof.
  intros final.
  assert (H : board_inv final ((leaderboard ++ [e]) ++ es)).
  { change final with (recordAll (updatedLB leaderboard e) es).
    apply board_inv_recordAll, board_inv_first. }
  rewrite <- app_assoc in H. simpl in H.
  destruct H as (Hs & Hlen & Ht).
  repeat split; try assumption.
  intros s. apply tie_ok_prefix, Ht.
Qed.

(** The seeded board already satisfies the invariant, so it holds from the
    first load on, before any record. *)
Lemma seed_board_inv date es :
  board_inv (recordAll (seed date) es) (seed date ++ es).
Proof.
  apply board_inv_recordAll. repeat split.
  - unfold seed, desc. repeat constructor; simpl; lia.
  - simpl. lia.
  - intros s. now left.
Qed.

(** X19.  The update keeps the best and invents nothing.  The updated board
    together with what it drops is a rearrangement of the old board and the
    new entry; nothing dropped outscores anything kept; nothing is dropped
    while there is room (fewer than 10 entries before); and the updated
    board has 10 entries or one more than before, whichever is less. *)
Theorem updatedLB_keeps_the_best board e :
  exists dropped,
    Permutation (updatedLB board e ++ dropped) (board ++ [e]) /\
    (forall k d, In k (updatedLB board e) -> In d dropped ->
                 lb_score d <= lb_score k) /\
    ((List.length board < 10)%nat -> dropped = []) /\
    List.length (updatedLB board e) = Nat.min 10 (S (List.length board)).
Proof.
  exists (skipn 10 (sort compareFn (board ++ [e]))).
  unfold updatedLB, slice0. repeat split.
  - rewrite firstn_skipn. apply sort_perm.
  - intros k d Hk Hd.
    apply (sorted_app_inv (firstn 10 (sort compareFn (board ++ [e])))
                          (skipn 10 (sort compareFn (board ++ [e]))));
      try assumption.
    rewrite firstn_skipn. apply sort_sorted.
  - intros Hlt. apply skipn_all2.
    rewrite sort_length, length_app. simpl. lia.
  - rewrite length_firstn, sort_length, length_app.
    cbn [List.length]. f_equal. lia.
Qed.

End LeaderboardFacts.

(** ** Strings *)

Module TextFacts.

Import Text.

Lemma trimStart_length s : (String.length (trimStart s) <= String.length s)%nat.
Proof.
  induction s as [|c s IH]; simpl; [lia|].
  destruct (isWhiteSpace c); simpl; lia.
Qed.

Lemma trimEnd_length s : (String.length (trimEnd s) <= String.length s)%nat.
Proof.
  induction s as [|c s IH]; simpl; [lia|].
  destruct (trimEnd s); [destruct (isWhiteSpace c)|]; simpl in *; lia.
Qed.

Lemma trim_length s : (String.length (trim s) <= String.length s)%nat.
Proof.
  unfold trim. etransitivity; [apply trimEnd_length | apply trimStart_length].
Qed.

End TextFacts.

(** ** The loading bar *)

Module TerminalUIFacts.

Import TerminalUI.

Lemma LoadingBar_in_range progress label :
  (0 <= progress)%Q -> (progress <= 100)%Q ->
  (width (LoadingBar progress label) == progress)%Q /\
  0 <= percent (LoadingBar progress label) <= 100.
Proof.
  intros H0 H100. unfold LoadingBar. cbn [width percent]. repeat split.
  - rewrite Q.min_r by (apply Q.max_lub; [lra | assumption]). now apply Q.max_r.
  - change 0 with (Qfloor (1 # 2)). apply Qfloor_resp_le. lra.
  - change 100 with (Qfloor (201 # 2)). apply Qfloor_resp_le. lra.
Qed.

(** X10.  The loading bar stays on its track.  For every progress value the
    filled width is between 0 and 100; it is the progress itself when that
    lies between 0 and 100 (and then the percentage shown is an integer
    from 0 to 100), 0 below and 100 above.  The percentage shown is the
    integer nearest to the progress, a tie going up; the caption is never
    empty. *)
Theorem LoadingBar_on_track (progress : Q) (label : option string) :
  let v := LoadingBar progress label in
  ((0 <= width v)%Q /\ (width v <= 100)%Q) /\
  ((0 <= progress)%Q -> (progress <= 100)%Q ->
   (width v == progress)%Q /\ 0 <= percent v <= 100) /\
  ((progress <= 0)%Q -> (width v == 0)%Q) /\
  ((100 <= progress)%Q -> (width v == 100)%Q) /\
  ((inject_Z (percent v) <= progress + (1 # 2))%Q /\
   (progress + (1 # 2) < inject_Z (percent v + 1))%Q) /\
  caption v <> "".
Proof.
  cbv zeta. unfold LoadingBar. cbn [width percent caption].
  assert (H100 : (0 <= 100)%Q) by lra.
  repeat split.
  - apply Q.min_glb; [exact H100 | apply Q.le_max_l].
  - apply Q.le_min_l.
  - rewrite Q.min_r by (apply Q.max_lub; assumption). now apply Q.max_r.
  - change 0 with (Qfloor (1 # 2)). apply Qfloor_resp_le. lra.
  - change 100 with (Qfloor (201 # 2)). apply Qfloor_resp_le. lra.
  - intros Hneg. rewrite Q.min_r by (apply Q.max_lub; [exact H100 | lra]).
    now apply Q.max_l.
  - intros Hbig. apply Q.min_l. apply Qle_trans with progress;
      [exact Hbig | apply Q.le_max_r].
  - apply Qfloor_le.
  - apply Qlt_floor.
  - destruct label as [[|c m]|]; discriminate.
Qed.

End TerminalUIFacts.

(** ** The component *)

Section ClientFacts.

Context `{platform : Platform}.

(** ** The session invariant *)

(** The effect after a render touches the question timer only. *)
Lemma commit_cases now old new :
  commit now old new = new \/ commit now old new = set_questionStartTime now new.
Proof.
  unfold commit.
  destruct ((negb (AppState_eqb (state old) (state new))
             || negb (currentQuestionIndex old =? currentQuestionIndex new))
            && AppState_eqb (state new) ASSESSMENT); auto.
Qed.

Lemma Phase_questionStartTime now st :
  Phase st -> Phase (set_questionStartTime now st).
Proof.
  destruct st. intros H.
  destruct H;
    [ eapply PhBooting | eapply PhAuth | eapply PhMenu | eapply PhGenerating
    | eapply PhSettling | eapply PhAssessment | eapply PhAnalyzing
    | eapply PhReporting | eapply PhResult | eapply PhError ];
    unfold sessionOK in *; simpl in *; eauto.
Qed.

Lemma Phase_commit now old new : Phase new -> Phase (commit now old new).
Proof.
  intros H. destruct (commit_cases now old new) as [-> | ->];
    [exact H | now apply Phase_questionStartTime].
Qed.

Lemma sessionOK_start q st :
  sessionOK (startAssessment_resolved q st).
Proof.
  unfold sessionOK, startAssessment_resolved. simpl. lia.
Qed.

Lemma js_index_Some {A} (xs : list A) i x :
  js_index xs i = Some x -> 0 <= i < Z.of_nat (List.length xs).
Proof.
  unfold js_index. destruct (Z.ltb_spec i 0) as [Hlt|Hge]; [discriminate|].
  intros Hx. assert (Hn : nth_error xs (Z.to_nat i) <> None) by congruence.
  apply nth_error_Some in Hn. lia.
Qed.

Lemma js_index_None {A} (xs : list A) i :
  js_index xs i = None <-> i < 0 \/ Z.of_nat (List.length xs) <= i.
Proof.
  unfold js_index. destruct (Z.ltb_spec i 0).
  - split; auto.
  - rewrite nth_error_None. lia.
Qed.

Lemma Phase_mount date stored : Phase (mount date (initial stored)).
Proof.
  destruct stored; now apply PhBooting.
Qed.

Lemma Phase_step now ev st st' :
  Phase st -> step now ev st = Some st' -> Phase st'.
Proof.
  intros HP Hstep. unfold step in Hstep.
  destruct st as [s u qs ans i r em lp lb t0 sto p].
  destruct ev; simpl in Hstep.
  - (* BootElapsed *)
    destruct HP; simpl in *; subst; simpl in Hstep; try discriminate.
    injection Hstep as <-. apply Phase_commit. now apply PhAuth.
  - (* Change *)
    destruct HP; simpl in *; subst; simpl in Hstep; try discriminate.
    injection Hstep as <-. now apply PhAuth.
  - (* SubmitLogin *)
    destruct HP; simpl in *; subst; simpl in Hstep; try discriminate.
    destruct (negb _); [|discriminate].
    injection Hstep as <-. apply Phase_commit. unfold handleLogin. simpl.
    destruct (_ <? _)%nat; [now apply PhMenu | now apply PhAuth].
  - (* SelectScan *)
    destruct HP; simpl in *; subst; simpl in Hstep; try discriminate.
    injection Hstep as <-. apply Phase_commit.
    now eapply PhGenerating.
  - (* Tick *)
    destruct HP; simpl in *; subst; simpl in Hstep; try discriminate;
      (destruct (_ && _); [|discriminate]); injection Hstep as <-.
    + now eapply PhGenerating.
    + now eapply PhAnalyzing.
  - (* QuestionsResolved *)
    destruct HP; simpl in *; subst; simpl in Hstep; try discriminate.
    injection Hstep as <-. apply Phase_commit.
    apply PhSettling; [reflexivity | reflexivity | apply sessionOK_start].
  - (* QuestionsRejected *)
    destruct HP; simpl in *; subst; simpl in Hstep; try discriminate.
    injection Hstep as <-. apply Phase_commit. now apply PhError.
  - (* AssessmentTimerElapsed *)
    destruct HP; simpl in *; subst; simpl in Hstep; try discriminate.
    injection Hstep as <-. apply Phase_commit. now apply PhAssessment.
  - (* ChooseOption *)
    destruct HP as [| | | | |Hs Hp Hok| | | |]; simpl in *; subst;
      simpl in Hstep; try discriminate.
    destruct (optionShown option _) eqn:Hshown; [|discriminate].
    injection Hstep as <-. apply Phase_commit.
    unfold optionShown in Hshown. simpl in Hshown.
    unfold handleAnswer. simpl.
    destruct qs as [|q0 qs']; [discriminate|].
    destruct (js_index (q0 :: qs') i) as [q|] eqn:Hq; [|discriminate].
    apply js_index_Some in Hq.
    destruct Hok as [Hi Hlen]. simpl in Hi, Hlen.
    destruct (Z.ltb_spec i (Z.of_nat (List.length (q0 :: qs')) - 1)).
    + apply PhAssessment; [reflexivity | reflexivity |].
      unfold sessionOK. simpl questions. simpl answers.
      simpl currentQuestionIndex. rewrite length_app.
      cbn [List.length] in *. lia.
    + simpl. now eapply PhAnalyzing.
  - (* AnalysisResolved *)
    destruct HP; simpl in *; subst; simpl in Hstep; try discriminate.
    injection Hstep as <-. apply Phase_commit. now apply PhReporting.
  - (* AnalysisRejected *)
    destruct HP; simpl in *; subst; simpl in Hstep; try discriminate.
    injection Hstep as <-. apply Phase_commit. now apply PhError.
  - (* ResultTimerElapsed *)
    destruct HP; simpl in *; subst; simpl in Hstep; try discriminate.
    injection Hstep as <-. apply Phase_commit. now apply PhResult.
  - (* CloseDossier *)
    destruct HP; simpl in *; subst; simpl in Hstep; try discriminate.
    destruct r; [|discriminate].
    injection Hstep as <-. apply Phase_commit. now apply PhMenu.
  - (* RebootSystem *)
    destruct HP; simpl in *; subst; simpl in Hstep; try discriminate.
    injection Hstep as <-. apply Phase_commit. now apply PhMenu.
Qed.

Lemma Phase_run evs : forall st st',
  Phase st -> run evs st = Some st' -> Phase st'.
Proof.
  induction evs as [|[now ev] evs IH]; intros st st' HP Hrun.
  - injection Hrun as <-. exact HP.
  - simpl in Hrun.
    destruct (step now ev st) as [st1|] eqn:H1; [|discriminate].
    apply (IH st1); [|exact Hrun]. now apply (Phase_step now ev st).
Qed.

(** ** The assessment session *)

(** C8.  In every state the component can reach from its mount, whatever the
    storage held and whatever the events, the session is consistent while
    the assessment is showing: [0 <= currentQuestionIndex <=
    questions.length] and [answers.length == currentQuestionIndex].  A
    resolved generation stores the questions with index 0 and no answers;
    an answer to a shown question appends exactly one [Answer], built from
    the current question, and advances the index by 1 when more questions
    remain (and otherwise leaves the assessment for the analysis). *)
Theorem assessment_session_invariant :
  (forall date stored evs st,
     run evs (mount date (initial stored)) = Some st ->
     state st = ASSESSMENT -> sessionOK st) /\
  (forall q st,
     questions (startAssessment_resolved q st) = q /\
     answers (startAssessment_resolved q st) = [] /\
     currentQuestionIndex (startAssessment_resolved q st) = 0) /\
  (forall option now st currentQ,
     js_index (questions st) (currentQuestionIndex st) = Some currentQ ->
     let st' := snd (handleAnswer option now st) in
     answers st' =
       answers st ++ [mkAnswer (q_id currentQ) (q_text currentQ) option
                               (q_dimension currentQ)
                               (now - questionStartTime st)] /\
     (currentQuestionIndex st < Z.of_nat (List.length (questions st)) - 1 ->
      currentQuestionIndex st' = currentQuestionIndex st + 1 /\
      state st' = state st) /\
     (Z.of_nat (List.length (questions st)) - 1 <= currentQuestionIndex st ->
      currentQuestionIndex st' = currentQuestionIndex st /\
      state st' = ANALYZING)).
Proof.
  split; [|split].
  - intros date stored evs st Hrun Hs.
    assert (HP : Phase st).
    { eapply Phase_run; [apply (Phase_mount date stored) | exact Hrun]. }
    destruct HP as [H|H|H|? ? ? H|H|H ? Hok|? ? ? H|H|H|H];
      try (rewrite Hs in H; discriminate).
    exact Hok.
  - intros q st. now unfold startAssessment_resolved.
  - intros option now st currentQ Hq. unfold handleAnswer. rewrite Hq.
    destruct (Z.ltb_spec (currentQuestionIndex st)
                         (Z.of_nat (List.length (questions st)) - 1)) as [Hlt|Hge];
      simpl; (split; [reflexivity|]); split; intros; try lia; auto.
Qed.

(** C3, amended.  Called with no current question (an empty question
    sequence, or an index outside it), [handleAnswer] throws a [TypeError]
    on reading the missing question, before any setter runs: the failure is
    not silent, and the answers, the index, the state and everything else
    are left as they were. *)
Theorem handleAnswer_without_question option now st :
  js_index (questions st) (currentQuestionIndex st) = None ->
  handleAnswer option now st = (Throw undefinedRead, st).
Proof.
  intros Hq. unfold handleAnswer. now rewrite Hq.
Qed.

(** ** Error recovery *)

(** The effect on the question timer runs only when the assessment shows. *)
Lemma commit_elsewhere now old new :
  state new <> ASSESSMENT -> commit now old new = new.
Proof.
  intros H. unfold commit.
  destruct (state new); try contradiction; simpl;
    now rewrite ?andb_false_r.
Qed.

(** One reaction keeps the two components together: they differ in the
    erased session data at most, and not at all once a generation resolved. *)
Lemma sessionErased_step now ev a b :
  sessionErased a b ->
  match step now ev a, step now ev b with
  | Some a', Some b' => sessionErased a' b'
  | None, None => True
  | _, _ => False
  end.
Proof.
  intros [<-|[HI ->]].
  - destruct (step now ev a); [now left | exact I].
  - destruct a as [s u qs ans i r em lp lb t0 sto p].
    unfold awaitingQuestions in HI. simpl in HI.
    destruct HI as [[-> ->]|[[-> ->]|[-> (ms & scale & count & ->)]]].
    + (* MENU *)
      destruct ev; try (vm_compute; exact I).
      vm_compute. right. split; [|reflexivity].
      right. right. split; [reflexivity|]. do 3 eexists. reflexivity.
    + (* ERROR *)
      destruct ev; try (vm_compute; exact I).
      vm_compute. right. split; [|reflexivity]. left. split; reflexivity.
    + (* GENERATING *)
      destruct ev; try (vm_compute; exact I).
      * cbn -[tick].
        destruct (Qle_bool 0 rnd && negb (Qle_bool 1 rnd)); [|exact I].
        right. split; [|reflexivity].
        right. right. split; [reflexivity|]. do 3 eexists. reflexivity.
      * vm_compute. destruct i; left; reflexivity.
      * vm_compute. right. split; [|reflexivity]. right. left. split; reflexivity.
Qed.

Lemma sessionErased_run evs : forall a b,
  sessionErased a b ->
  match run evs a, run evs b with
  | Some a', Some b' => sessionErased a' b'
  | None, None => True
  | _, _ => False
  end.
Proof.
  induction evs as [|[now ev] evs IH]; intros a b H; simpl.
  - exact H.
  - pose proof (sessionErased_step now ev a b H) as Hs.
    destruct (step now ev a) as [a'|], (step now ev b) as [b'|];
      try contradiction; [now apply IH | exact I].
Qed.

(** Erased session data cannot be observed. *)
Lemma sessionErased_observable a b :
  sessionErased a b -> observable a = observable b.
Proof.
  intros [<-|[HI ->]]; [reflexivity|].
  destruct a as [s u qs ans i r em lp lb t0 sto p].
  unfold awaitingQuestions in HI. simpl in HI.
  now destruct HI as [[-> _]|[[-> _]|[-> _]]].
Qed.

(** C4.  The failure view offers the user one action only, the recovery
    action, and taking it returns to MENU.  From there on the questions and
    answers held so far are gone for the user: whatever happens next, the
    component offers the same events, shows the same screens, starts the
    same timers and gateway calls and stores the same board as a component
    whose question sequence and answer sequence were erased at the
    transition.  (The handler itself is [setState(MENU)] alone: the old
    values stay in memory, where no view and no handler reads them, until
    the next generation that resolves overwrites them.) *)
Theorem recovery_discards_session now st :
  reachable st -> state st = ERROR ->
  (forall ev, isUserEvent ev = true -> step now ev st <> None ->
              ev = RebootSystem) /\
  step now RebootSystem st = Some (rebootSystem st) /\
  state (rebootSystem st) = MENU /\
  (forall evs,
     option_map observable (run evs (rebootSystem st)) =
     option_map observable (run evs (discardSession (rebootSystem st)))).
Proof.
  intros (date & stored & evs0 & Hrun) Hs.
  assert (HP : Phase st) by exact (Phase_run _ _ _ (Phase_mount date stored) Hrun).
  assert (Hp : pending st = []).
  { destruct HP as [H|H|H|? ? ? H|H|H|? ? ? H|H|H|H Hp];
      try (rewrite Hs in H; discriminate H). exact Hp. }
  split; [|split; [|split]].
  - intros ev Hu Hstep. destruct ev; try discriminate Hu;
      try reflexivity; exfalso; apply Hstep; cbn [step]; now rewrite Hs.
  - cbn [step]. rewrite Hs. simpl. now rewrite commit_elsewhere.
  - reflexivity.
  - intros evs.
    assert (He : sessionErased (rebootSystem st) (discardSession (rebootSystem st))).
    { right. split; [|reflexivity]. left. now split. }
    pose proof (sessionErased_run evs _ _ He) as H.
    destruct (run evs (rebootSystem st)) as [a|],
             (run evs (discardSession (rebootSystem st))) as [b|];
      try contradiction; [|reflexivity].
    simpl. f_equal. now apply sessionErased_observable.
Qed.

(** ** Login *)

(** C5, amended.  From AUTH, a login submission goes to MENU exactly when
    the username, with leading and trailing white space removed, has 3 code
    units or more.  So it is blocked at lengths 0, 1 and 2 (where the submit
    button is disabled as well), and also at greater lengths when fewer than
    3 code units remain after trimming; the username is otherwise
    unchanged. *)
Theorem login_guard st :
  state st = AUTH ->
  (state (handleLogin st) = MENU <->
     (3 <= String.length (Text.trim (username st)))%nat) /\
  ((String.length (username st) <= 2)%nat ->
     submitDisabled st = true /\ handleLogin st = st) /\
  ((String.length (Text.trim (username st)) <= 2)%nat -> handleLogin st = st) /\
  username (handleLogin st) = username st /\
  (forall now,
     step now SubmitLogin st =
       if (String.length (username st) <? 3)%nat then None
       else if (2 <? String.length (Text.trim (username st)))%nat
            then Some (set_state MENU st)
            else Some st).
Proof.
  intros Hs.
  pose proof (TextFacts.trim_length (username st)) as Hle.
  assert (Hstep : forall now,
     step now SubmitLogin st =
       if (String.length (username st) <? 3)%nat then None
       else if (2 <? String.length (Text.trim (username st)))%nat
            then Some (set_state MENU st)
            else Some st).
  { intros now. cbn [step]. unfold submitDisabled, handleLogin, commit.
    rewrite Hs. simpl AppState_eqb.
    destruct (String.length (username st) <? 3)%nat; [reflexivity|].
    destruct (2 <? String.length (Text.trim (username st)))%nat; simpl.
    - reflexivity.
    - rewrite Hs. simpl. now rewrite andb_false_r. }
  unfold handleLogin, submitDisabled.
  destruct (Nat.ltb_spec 2 (String.length (Text.trim (username st)))) as [Hlt|Hge].
  - repeat split; intros; try lia; try reflexivity. apply Hstep.
  - repeat split; intros; try lia; try reflexivity.
    + rewrite Hs in *. discriminate.
    + apply Nat.ltb_lt. lia.
    + apply Hstep.
Qed.

(** ** Gateway failures *)

Lemma orElse_cause err fallback :
  orElse (err_message err) fallback = cause err fallback.
Proof.
  unfold cause. destruct (err_message err) as [[|c m]|]; reflexivity.
Qed.

Lemma state_commit now old new : state (commit now old new) = state new.
Proof. destruct (commit_cases now old new) as [-> | ->]; reflexivity. Qed.

Lemma errorMsg_commit now old new : errorMsg (commit now old new) = errorMsg new.
Proof. destruct (commit_cases now old new) as [-> | ->]; reflexivity. Qed.

(** C7.  A rejected generation call (outstanding in GENERATING) takes the
    component to ERROR with the message ["CONNECTION FAILED: "] followed by
    the thrown value's message, or by ["UNKNOWN ERROR"] when that is missing
    or empty; a rejected analysis call (outstanding in ANALYZING) takes it
    to ERROR with ["ANALYSIS FAILED: "] followed by the message, or by
    ["DATA CORRUPTED"].  An analysis failing with [Error("timeout")] shows
    exactly ["ANALYSIS FAILED: timeout"]. *)
Theorem gateway_failure_message now err st :
  (forall count rest,
     take isGenerateCall (pending st) = Some (GenerateCall count, rest) ->
     exists st',
       step now (QuestionsRejected err) st = Some st' /\
       state st' = ERROR /\
       errorMsg st' = ("CONNECTION FAILED: " ++ cause err "UNKNOWN ERROR")%string) /\
  (forall finalAnswers user board rest,
     take isAnalyzeCall (pending st) =
       Some (AnalyzeCall finalAnswers user board, rest) ->
     exists st',
       step now (AnalysisRejected err) st = Some st' /\
       state st' = ERROR /\
       errorMsg st' = ("ANALYSIS FAILED: " ++ cause err "DATA CORRUPTED")%string /\
       (err = Error "timeout" -> errorMsg st' = "ANALYSIS FAILED: timeout")).
Proof.
  split.
  - intros count rest Ht. eexists. split; [simpl; rewrite Ht; reflexivity|].
    rewrite state_commit, errorMsg_commit. unfold startAssessment_rejected.
    simpl. now rewrite orElse_cause.
  - intros finalAnswers user board rest Ht. eexists.
    split; [simpl; rewrite Ht; reflexivity|].
    rewrite state_commit, errorMsg_commit. unfold finishAssessment_rejected.
    simpl. rewrite orElse_cause. repeat split. now intros ->.
Qed.

Lemma sessionData_commit now old new :
  sessionData (commit now old new) = sessionData new.
Proof. destruct (commit_cases now old new) as [-> | ->]; reflexivity. Qed.

Lemma sessionData_clearInterval st :
  sessionData (clearInterval st) = sessionData st.
Proof.
  unfold clearInterval. now destruct (take isInterval (pending st)) as [[? ?]|].
Qed.

Lemma sessionData_Tick now rnd st st' :
  step now (Tick rnd) st = Some st' -> sessionData st' = sessionData st.
Proof.
  simpl. destruct (find isInterval (pending st)) as [[]|]; try discriminate.
  destruct (_ && _); [|discriminate]. now intros [= <-].
Qed.

Lemma sessionData_ticks ticks : forall st st',
  run (tickEvents ticks) st = Some st' -> sessionData st' = sessionData st.
Proof.
  induction ticks as [|[t rnd] ticks IH]; intros st st' Hrun; simpl in Hrun.
  - now injection Hrun as <-.
  - destruct (find isInterval (pending st)) as [[]|] eqn:Hf; try discriminate.
    destruct (_ && _) eqn:Hg; [|discriminate].
    apply IH in Hrun. now rewrite Hrun.
Qed.

Lemma run_app evs1 : forall evs2 st,
  run (evs1 ++ evs2) st =
  match run evs1 st with
  | Some st1 => run evs2 st1
  | None => None
  end.
Proof.
  induction evs1 as [|[now ev] evs1 IH]; intros evs2 st; simpl; [reflexivity|].
  destruct (step now ev st); [apply IH | reflexivity].
Qed.

(** C10.  A generation that starts from the menu, runs its progress
    interval any number of times and is then rejected ends in ERROR with the
    questions, the answers, the current index, the leaderboard and the
    stored leaderboard exactly as they were before GENERATING was entered. *)
Theorem generation_failure_is_atomic now0 count ticks now1 err st st' :
  run ((now0, SelectScan count) :: tickEvents ticks
         ++ [(now1, QuestionsRejected err)]) st = Some st' ->
  state st' = ERROR /\
  questions st' = questions st /\
  answers st' = answers st /\
  currentQuestionIndex st' = currentQuestionIndex st /\
  leaderboard st' = leaderboard st /\
  storage st' = storage st.
Proof.
  intros Hrun. cbn [run] in Hrun.
  destruct (step now0 (SelectScan count) st) as [st1|] eqn:H1; [|discriminate].
  rewrite run_app in Hrun.
  destruct (run (tickEvents ticks) st1) as [st2|] eqn:H2; [|discriminate].
  cbn [run] in Hrun.
  destruct (step now1 (QuestionsRejected err) st2) as [st3|] eqn:H3;
    [|discriminate].
  injection Hrun as <-.
  assert (D1 : sessionData st1 = sessionData st).
  { simpl in H1. destruct (AppState_eqb (state st) MENU); [|discriminate].
    injection H1 as <-. now rewrite sessionData_commit. }
  assert (D2 : sessionData st2 = sessionData st1)
    by (now apply (sessionData_ticks ticks)).
  assert (D3 : sessionData st3 = sessionData st2 /\ state st3 = ERROR).
  { simpl in H3.
    destruct (take isGenerateCall (pending st2)) as [[? rest]|]; [|discriminate].
    injection H3 as <-. rewrite sessionData_commit, state_commit.
    unfold startAssessment_rejected. split; [|reflexivity].
    cbv zeta. change (sessionData (clearInterval (set_pending rest st2))
                      = sessionData st2).
    now rewrite sessionData_clearInterval. }
  destruct D3 as [D3 Hs]. rewrite D2, D1 in D3.
  unfold sessionData in D3. injection D3 as -> -> -> -> ->. now repeat split.
Qed.

(** ** The leaderboard in the component *)

Lemma boardStored_data a b :
  boardData a = boardData b -> boardStored b -> boardStored a.
Proof.
  unfold boardData, boardStored. intros [= -> ->]. auto.
Qed.

Lemma boardData_commit now old new : boardData (commit now old new) = boardData new.
Proof. destruct (commit_cases now old new) as [-> | ->]; reflexivity. Qed.

Lemma boardData_clearInterval st : boardData (clearInterval st) = boardData st.
Proof.
  unfold clearInterval. now destruct (take isInterval (pending st)) as [[? ?]|].
Qed.

Lemma boardData_handleAnswer option now st :
  boardData (snd (handleAnswer option now st)) = boardData st.
Proof.
  unfold handleAnswer.
  destruct (js_index (questions st) (currentQuestionIndex st)); [|reflexivity].
  now destruct (_ <? _).
Qed.

Lemma boardStored_mount date stored :
  validStorage stored -> boardStored (mount date (initial stored)).
Proof.
  destruct stored as [l|]; simpl.
  - intros [Hs Hl]. now repeat split.
  - intros _. repeat split; simpl; try lia.
    unfold Leaderboard.seed, Leaderboard.desc. repeat constructor; simpl; lia.
Qed.

(** A resolved analysis stores the board with the new entry appended,
    sorted and cut; nothing else touches the board. *)
Lemma boardStored_step now ev st st' :
  boardStored st -> step now ev st = Some st' -> boardStored st'.
Proof.
  intros Hb Hstep.
  destruct ev; cbn [step] in Hstep;
    repeat match type of Hstep with
           | context [match ?x with _ => _ end] =>
               destruct x eqn:?; try discriminate
           end;
    injection Hstep as <-;
    lazymatch goal with
    | |- boardStored (commit _ _ (finishAssessment_resolved _ _ _ _ _ _)) =>
        (* the resolved analysis *)
        eapply boardStored_data; [apply boardData_commit|];
        unfold boardStored, finishAssessment_resolved; simpl;
        repeat split;
        [apply LeaderboardFacts.updatedLB_sorted | apply LeaderboardFacts.updatedLB_length]
    | |- _ =>
        apply (boardStored_data _ st); [|exact Hb];
        rewrite ?boardData_commit;
        unfold handleChange, handleLogin, startAssessment,
          startAssessment_resolved, startAssessment_rejected,
          finishAssessment_rejected, closeDossier, rebootSystem;
        cbv zeta;
        repeat match goal with
               | |- context [if ?x then _ else _] => destruct x
               end;
        try reflexivity;
        try (rewrite ?boardData_handleAnswer; reflexivity);
        match goal with
        | |- boardData ?a = _ =>
            change (boardData a)
              with (boardData (clearInterval (set_pending l st)))
        end;
        now rewrite boardData_clearInterval
    end.
Qed.

Lemma boardStored_run evs : forall st st',
  boardStored st -> run evs st = Some st' -> boardStored st'.
Proof.
  induction evs as [|[now ev] evs IH]; intros st st' Hb Hrun; simpl in Hrun.
  - now injection Hrun as <-.
  - destruct (step now ev st) as [st1|] eqn:H1; [|discriminate].
    apply (IH st1); [|exact Hrun]. now apply (boardStored_step now ev st).
Qed.

(** X2.  The leaderboard of the component.  From a mount over valid storage
    (none, or a board in order of at most 10 entries), in every state any
    run reaches, the board shown is in descending score order, has at most
    10 entries, and is exactly what the storage holds. *)
Lemma boardStored_reachable date stored evs st :
  validStorage stored ->
  run evs (mount date (initial stored)) = Some st -> boardStored st.
Proof.
  intros Hv. apply boardStored_run. now apply boardStored_mount.
Qed.

(** In a reachable state the resolved analysis records on the current
    board, under the current username. *)
Lemma record_on_current_board now result rndId date st st' :
  Phase st ->
  step now (AnalysisResolved result rndId date) st = Some st' ->
  leaderboard st' =
    Leaderboard.updatedLB (leaderboard st)
      (mkEntry (username st) (score result) date rndId) /\
  storage st' = Some (leaderboard st') /\
  report st' = Some result.
Proof.
  intros HP Hstep. cbn [step] in Hstep.
  destruct HP as [? Hp|? Hp|? Hp|? ? ? ? Hp|? Hp|? Hp|? ? ? ? Hp|? Hp|? Hp|? Hp];
    rewrite Hp in Hstep; simpl in Hstep; try discriminate.
  injection Hstep as <-.
  destruct (commit_cases now st
    (finishAssessment_resolved (username st) (leaderboard st) result rndId date
       (set_pending [Interval ms scale] st))) as [-> | ->];
    now unfold finishAssessment_resolved.
Qed.

(** ** The progress simulator *)

Lemma fl_proper : rounding -> forall x y, (x == y)%Q -> (fl x == fl y)%Q.
Proof.
  intros (Hmono & _) x y Hxy.
  apply Qle_antisym; apply Hmono; rewrite Hxy; apply Qle_refl.
Qed.

Lemma tick_le_90 scale prev rnd : (tick scale prev rnd <= 90)%Q.
Proof. apply Q.le_min_r. Qed.

Lemma tick_fixed scale prev rnd :
  rounding -> (fl (tick scale prev rnd) == tick scale prev rnd)%Q.
Proof.
  intros HR. pose proof (fl_proper HR) as Hp.
  destruct HR as (_ & _ & H90 & Hidem). unfold tick.
  destruct (Qlt_le_dec 90 (fl (prev + fl (rnd * scale)))) as [Hgt|Hle].
  - assert (E : (Qmin (fl (prev + fl (rnd * scale))) 90 == 90)%Q)
      by (apply Q.min_r, Qlt_le_weak, Hgt).
    rewrite (Hp _ _ E), E. exact H90.
  - assert (E : (Qmin (fl (prev + fl (rnd * scale))) 90
                 == fl (prev + fl (rnd * scale)))%Q)
      by (apply Q.min_l, Hle).
    rewrite (Hp _ _ E), E. apply Hidem.
Qed.

Lemma tick_ge_prev scale prev rnd :
  rounding -> (0 <= scale)%Q -> (0 <= rnd)%Q ->
  (fl prev == prev)%Q -> (prev <= 90)%Q ->
  (prev <= tick scale prev rnd)%Q.
Proof.
  intros HR Hscale Hrnd Hfix Hcap. destruct HR as (Hmono & H0 & _ & _).
  unfold tick. apply Q.min_glb; [|exact Hcap].
  assert (Hd : (0 <= fl (rnd * scale))%Q).
  { rewrite <- H0. apply Hmono. now apply Qmult_le_0_compat. }
  rewrite <- Hfix at 1. apply Hmono.
  rewrite <- (Qplus_0_r prev) at 1. apply Qplus_le_r. exact Hd.
Qed.

Lemma simulate_length scale rnds : forall prev,
  List.length (simulate scale prev rnds) = List.length rnds.
Proof.
  induction rnds as [|rnd rnds IH]; intros prev; simpl; [reflexivity|].
  now rewrite IH.
Qed.

Lemma simulate_capped scale rnds : forall prev,
  Forall (fun v => (v <= 90)%Q /\ ~ (91 <= v)%Q) (simulate scale prev rnds).
Proof.
  induction rnds as [|rnd rnds IH]; intros prev; simpl; constructor.
  - pose proof (tick_le_90 scale prev rnd) as H. split; [exact H|].
    intros H91. apply (Qle_not_lt _ _ (Qle_trans _ _ _ H91 H)). reflexivity.
  - apply IH.
Qed.

Lemma simulate_sorted scale rnds :
  rounding -> (0 <= scale)%Q -> Forall drawn rnds ->
  forall prev, (fl prev == prev)%Q -> (prev <= 90)%Q ->
  Sorted Qle (prev :: simulate scale prev rnds).
Proof.
  intros HR Hscale Hd. induction Hd as [|rnd rnds [Hrnd _] _ IH];
    intros prev Hfix Hcap; simpl.
  - repeat constructor.
  - constructor.
    + apply IH; [now apply tick_fixed | apply tick_le_90].
    + constructor. now apply tick_ge_prev.
Qed.

(** The interval callbacks update the display by [tick], with the factor of
    the running interval. *)
Lemma progressTrace_simulate now ms scale rnds :
  Forall drawn rnds ->
  forall st, find isInterval (pending st) = Some (Interval ms scale) ->
  progressTrace now rnds st = simulate scale (loadingProgress st) rnds.
Proof.
  induction 1 as [|rnd rnds [H0 H1] _ IH]; intros st Hf; [reflexivity|].
  cbn [progressTrace simulate step]. rewrite Hf.
  assert (G : Qle_bool 0 rnd && negb (Qle_bool 1 rnd) = true).
  { apply andb_true_iff. split; [now apply Qle_bool_iff|].
    apply negb_true_iff. destruct (Qle_bool 1 rnd) eqn:E; [|reflexivity].
    apply Qle_bool_iff in E. now apply Qle_not_lt in E. }
  rewrite G. f_equal. apply IH. destruct st; exact Hf.
Qed.

(** C6.  Under a rounding that is monotone and leaves numbers as they are:
    started from the menu (nothing outstanding), generation and analysis
    each reset the display to 0, and then every interval callback, for any
    draws of [Math.random()], sets it to [min(prev + rnd * 5, 90)] while
    generating and to [min(prev + rnd * 2, 90)] while analyzing.  The
    displayed values never decrease and never exceed 90, so none reaches
    91. *)
Theorem progress_monotone_capped now count finalAnswers rnds st :
  rounding -> pending st = [] -> Forall drawn rnds ->
  let generating := progressTrace now rnds (startAssessment count st) in
  let analyzing := progressTrace now rnds (finishAssessment finalAnswers st) in
  let ok (trace : list Q) :=
    List.length trace = List.length rnds /\
    Sorted Qle (0%Q :: trace) /\
    Forall (fun v => (v <= 90)%Q /\ ~ (91 <= v)%Q) trace in
  (generating = simulate 5 0 rnds /\ ok generating) /\
  (analyzing = simulate 2 0 rnds /\ ok analyzing).
Proof.
  intros HR Hp Hd generating analyzing ok.
  assert (Hfix0 : (fl 0 == 0)%Q) by apply HR.
  assert (Eg : generating = simulate 5 0 rnds).
  { unfold generating.
    rewrite (progressTrace_simulate now 200 5%Q rnds Hd); [reflexivity|].
    unfold startAssessment. simpl. now rewrite Hp. }
  assert (Ea : analyzing = simulate 2 0 rnds).
  { unfold analyzing.
    rewrite (progressTrace_simulate now 150 2%Q rnds Hd); [reflexivity|].
    unfold finishAssessment. simpl. now rewrite Hp. }
  rewrite Eg, Ea. unfold ok.
  repeat split;
    try apply simulate_length; try apply simulate_capped;
    apply simulate_sorted; try assumption; unfold Qle; simpl; lia.
Qed.

(** ** Further invariants of the component *)

Lemma firstn_succ {A} (l : list A) : forall n x,
  nth_error l n = Some x -> firstn (S n) l = firstn n l ++ [x].
Proof.
  induction l as [|y l IH]; intros [|n] x Hn; simpl in *; try discriminate.
  - now injection Hn as ->.
  - f_equal. now apply IH.
Qed.

Lemma js_index_nth {A} (xs : list A) i x :
  js_index xs i = Some x -> nth_error xs (Z.to_nat i) = Some x.
Proof.
  unfold js_index. now destruct (i <? 0).
Qed.

Lemma orElse_nonempty a c b : exists c' m, orElse a (String c b) = String c' m.
Proof.
  destruct a as [[|c' m]|]; simpl; eauto.
Qed.

Lemma optionShown_inv option st :
  optionShown option st = true ->
  exists q, js_index (questions st) (currentQuestionIndex st) = Some q /\
            In option (q_options q) /\ questions st <> [].
Proof.
  unfold optionShown. destruct (questions st) as [|q0 qs] eqn:Hqs; [discriminate|].
  destruct (js_index (q0 :: qs) (currentQuestionIndex st)) as [q|]; [|discriminate].
  intros Hex. apply existsb_exists in Hex. destruct Hex as (o & Hin & Heq).
  apply String.eqb_eq in Heq. subst o. exists q. repeat split; auto. discriminate.
Qed.

(** One more answer, to the current question. *)
Lemma transcript_snoc (qs : list Question) (ans : list Answer) i q a :
  Forall2 answered ans (firstn (Z.to_nat i) qs) ->
  js_index qs i = Some q -> answered a q ->
  Forall2 answered (ans ++ [a]) (firstn (Z.to_nat (i + 1)) qs).
Proof.
  intros Hall Hq Ha. pose proof (js_index_Some _ _ _ Hq) as Hi.
  apply js_index_nth in Hq.
  replace (Z.to_nat (i + 1)) with (S (Z.to_nat i)) by lia.
  rewrite (firstn_succ _ _ _ Hq). apply Forall2_app; [exact Hall|].
  constructor; [exact Ha | constructor].
Qed.

Lemma Sound_questionStartTime t st : Sound st -> Sound (set_questionStartTime t st).
Proof.
  destruct st. intros [S1 S2 S3 S4 S5 S6]. now constructor.
Qed.

Lemma Sound_commit now old new : Sound new -> Sound (commit now old new).
Proof.
  intros HS. destruct (commit_cases now old new) as [-> | ->];
    [exact HS | now apply Sound_questionStartTime].
Qed.

Lemma Sound_mount date stored : Sound (mount date (initial stored)).
Proof.
  destruct stored; constructor; simpl; try discriminate; try reflexivity;
    try (now intros [|]); try tauto;
    try (intros [E|[E|[]]]; discriminate E);
    intros t [<-|[]]; exact I.
Qed.

Ltac sound_fields :=
  constructor; unfold transcript in *; simpl in *; intros;
  repeat match goal with
         | E : _ \/ _ |- _ => destruct E
         | E : False |- _ => destruct E
         | E : ?x = ?y |- _ => first [discriminate E | subst x | subst y]
         end;
  try discriminate; try congruence; try exact I; auto;
  try match goal with
      | S : _ -> _ -> (3 <= ?n)%nat |- (3 <= ?n)%nat => apply S; discriminate
      | S : _ -> ?r <> None |- ?r <> None => apply S; auto
      | S : _ -> errorWorded ?m |- errorWorded ?m => apply S; reflexivity
      | S : _ -> ?A /\ ?B |- ?A /\ ?B => apply S; auto
      | S : forall t, _ -> callSound _ t |- callSound _ ?t =>
          exact (S t ltac:(simpl; auto))
      end.

Lemma Sound_step now ev st st' :
  Phase st -> Sound st -> step now ev st = Some st' -> Sound st'.
Proof.
  intros HP [S1 S2 S3 S4 S5 S6] Hstep. unfold step in Hstep.
  destruct st as [s u qs ans i r em lp lb t0 sto p].
  destruct ev; simpl in Hstep.
  - (* BootElapsed *)
    destruct HP; simpl in *; subst; simpl in Hstep; try discriminate.
    injection Hstep as <-. apply Sound_commit. sound_fields.
  - (* Change *)
    destruct HP; simpl in *; subst; simpl in Hstep; try discriminate.
    injection Hstep as <-. sound_fields.
  - (* SubmitLogin *)
    destruct HP; simpl in *; subst; simpl in Hstep; try discriminate.
    destruct (negb _); [|discriminate].
    injection Hstep as <-. apply Sound_commit. unfold handleLogin. simpl.
    destruct (Nat.ltb_spec 2 (String.length (Text.trim u))); sound_fields.
  - (* SelectScan *)
    destruct HP; simpl in *; subst; simpl in Hstep; try discriminate.
    injection Hstep as <-. apply Sound_commit. sound_fields.
    destruct count; simpl; auto.
  - (* Tick *)
    destruct HP; simpl in *; subst; simpl in Hstep; try discriminate;
      (destruct (_ && _); [|discriminate]); injection Hstep as <-;
      sound_fields.
  - (* QuestionsResolved *)
    destruct HP; simpl in *; subst; simpl in Hstep; try discriminate.
    injection Hstep as <-. apply Sound_commit. sound_fields.
    split; simpl; [constructor|]. destruct q; [congruence | simpl; lia].
  - (* QuestionsRejected *)
    destruct HP; simpl in *; subst; simpl in Hstep; try discriminate.
    injection Hstep as <-. apply Sound_commit. sound_fields.
    destruct (orElse_nonempty (err_message err) "U" "NKNOWN ERROR") as (c & m & E).
    exists c, m. left. simpl in E. now rewrite E.
  - (* AssessmentTimerElapsed *)
    destruct HP; simpl in *; subst; simpl in Hstep; try discriminate.
    injection Hstep as <-. apply Sound_commit. sound_fields.
  - (* ChooseOption *)
    destruct HP as [| | | | |Hs Hp Hok| | | |]; simpl in *; subst;
      simpl in Hstep; try discriminate.
    destruct (optionShown option _) eqn:Hshown; [|discriminate].
    injection Hstep as <-. apply Sound_commit.
    apply optionShown_inv in Hshown. simpl in Hshown.
    destruct Hshown as (q & Hq & Hin & Hne).
    unfold handleAnswer. simpl. rewrite Hq.
    destruct (S5 (or_introl eq_refl)) as [Htr Hlt]. simpl in Htr, Hlt.
    pose proof (js_index_Some _ _ _ Hq) as Hi.
    assert (Ha : answered (mkAnswer (q_id q) (q_text q) option
                                    (q_dimension q) (now - t0)) q)
      by (now repeat split).
    pose proof (transcript_snoc _ _ _ _ _ Htr Hq Ha) as Hnext.
    destruct (Z.ltb_spec i (Z.of_nat (List.length qs) - 1)).
    + sound_fields. split; simpl; [exact Hnext | intros; lia].
    + sound_fields. split; [|exact Hne].
      replace (Z.to_nat (i + 1)) with (List.length qs) in Hnext by lia.
      now rewrite firstn_all in Hnext.
  - (* AnalysisResolved *)
    destruct HP; simpl in *; subst; simpl in Hstep; try discriminate.
    injection Hstep as <-. apply Sound_commit. sound_fields.
  - (* AnalysisRejected *)
    destruct HP; simpl in *; subst; simpl in Hstep; try discriminate.
    injection Hstep as <-. apply Sound_commit. sound_fields.
    destruct (orElse_nonempty (err_message err) "D" "ATA CORRUPTED") as (c & m & E).
    exists c, m. right. simpl in E. now rewrite E.
  - (* ResultTimerElapsed *)
    destruct HP; simpl in *; subst; simpl in Hstep; try discriminate.
    injection Hstep as <-. apply Sound_commit. sound_fields.
  - (* CloseDossier *)
    destruct HP; simpl in *; subst; simpl in Hstep; try discriminate.
    destruct r; [|discriminate].
    injection Hstep as <-. apply Sound_commit. sound_fields.
  - (* RebootSystem *)
    destruct HP; simpl in *; subst; simpl in Hstep; try discriminate.
    injection Hstep as <-. apply Sound_commit. sound_fields.
Qed.

Lemma Phase_Sound_run evs : forall st st',
  Phase st -> Sound st -> run evs st = Some st' -> Phase st' /\ Sound st'.
Proof.
  induction evs as [|[now ev] evs IH]; intros st st' HP HS Hrun; simpl in Hrun.
  - injection Hrun as <-. now split.
  - destruct (step now ev st) as [st1|] eqn:H1; [|discriminate].
    apply (IH st1); [| |exact Hrun].
    + now apply (Phase_step now ev st).
    + now apply (Sound_step now ev st).
Qed.

Lemma reachable_Phase_Sound st : reachable st -> Phase st /\ Sound st.
Proof.
  intros (date & stored & evs & Hrun).
  apply (Phase_Sound_run evs _ _ (Phase_mount date stored)
           (Sound_mount date stored) Hrun).
Qed.

(** ** Further properties of the component *)

Lemma Phase_AnalyzeCall st finalAnswers user board :
  Phase st -> In (AnalyzeCall finalAnswers user board) (pending st) ->
  user = username st /\ board = leaderboard st /\ state st = ANALYZING.
Proof.
  intros HP Hin.
  destruct HP as [? Hp|? Hp|? Hp|? ? ? ? Hp|? Hp|? Hp|? ? ? ? Hp|? Hp|? Hp|? Hp];
    rewrite Hp in Hin; simpl in Hin;
    repeat match goal with
           | E : _ \/ _ |- _ => destruct E
           | E : False |- _ => destruct E
           end;
    try discriminate.
  match goal with E : _ = AnalyzeCall _ _ _ |- _ => injection E as _ <- <- end.
  auto.
Qed.

(** X1.  Reloading shows what was stored: in every reachable state, a fresh
    mount over the storage the state leaves behind shows exactly the
    state's leaderboard and leaves the storage as it is (the seed is not
    installed again). *)
Theorem reload_shows_stored_board date st :
  reachable st ->
  leaderboard (mount date (initial (storage st))) = leaderboard st /\
  storage (mount date (initial (storage st))) = storage st.
Proof.
  intros Hr. destruct (reachable_Phase_Sound st Hr) as [_ HS].
  rewrite (sound_stored st HS). now split.
Qed.

(** X3.  In a reachable state, a resolved analysis stores the result as the
    report, and records it on the board as it stands: one new entry with
    the result's score under the logged-in username (3 code units or more
    after trimming), appended, sorted and cut to 10; the same board goes to
    the storage, and the view stays on ANALYZING until its timer. *)
Theorem analysis_is_recorded now result rndId date st st' :
  reachable st ->
  step now (AnalysisResolved result rndId date) st = Some st' ->
  leaderboard st' =
    Leaderboard.updatedLB (leaderboard st)
      (mkEntry (username st) (score result) date rndId) /\
  storage st' = Some (leaderboard st') /\
  report st' = Some result /\
  (3 <= String.length (Text.trim (username st)))%nat /\
  state st' = ANALYZING /\ pending st' = [ResultTimer].
Proof.
  intros Hr Hstep. destruct (reachable_Phase_Sound st Hr) as [HP HS].
  destruct (record_on_current_board _ _ _ _ _ _ HP Hstep) as (H1 & H2 & H3).
  repeat split; try assumption.
  - apply (sound_login st HS);
      destruct HP as [? Hp|? Hp|? Hp|? ? ? ? Hp|? Hp|? Hp|? ? ? ? Hp|? Hp|? Hp|? Hp];
      cbn [step] in Hstep; rewrite Hp in Hstep; simpl in Hstep;
      try discriminate; congruence.
  - cbn [step] in Hstep.
    destruct HP as [? Hp|? Hp|? Hp|? ? ? ? Hp|? Hp|? Hp|ms scale fa Hs Hp|? Hp|? Hp|? Hp];
      rewrite Hp in Hstep; simpl in Hstep; try discriminate.
    injection Hstep as <-. now rewrite state_commit.
  - cbn [step] in Hstep.
    destruct HP as [? Hp|? Hp|? Hp|? ? ? ? Hp|? Hp|? Hp|ms scale fa Hs Hp|? Hp|? Hp|? Hp];
      rewrite Hp in Hstep; simpl in Hstep; try discriminate.
    injection Hstep as <-.
    destruct (commit_cases now st
      (finishAssessment_resolved (username st) (leaderboard st) result rndId date
         (set_pending [Interval ms scale] st))) as [-> | ->]; reflexivity.
Qed.

(** X4.  The view and the outstanding work go together.  In every reachable
    state: the LEADERBOARD view is never shown; at most one gateway call
    is outstanding, and only in GENERATING or ANALYZING; a progress interval
    runs exactly while a call is outstanding; and nothing but a timer, or
    an interval with its call, is ever outstanding. *)
Theorem outstanding_work_matches_view st :
  reachable st ->
  state st <> LEADERBOARD /\
  (List.length (filter isCall (pending st)) <= 1)%nat /\
  existsb isInterval (pending st) = existsb isCall (pending st) /\
  (existsb isCall (pending st) = true ->
   state st = GENERATING \/ state st = ANALYZING) /\
  (List.length (pending st) <= 2)%nat.
Proof.
  intros Hr. destruct (reachable_Phase_Sound st Hr) as [HP _].
  destruct HP as [Hs Hp|Hs Hp|Hs Hp|? ? ? Hs Hp|Hs Hp|Hs Hp|? ? ? Hs Hp|Hs Hp|Hs Hp|Hs Hp];
    rewrite Hs, Hp; simpl; repeat split; auto; try discriminate.
Qed.

(** X6.  Answers follow the questions.  In every reachable state showing the
    assessment, the answers recorded so far answer the questions before the
    current one, in order (same id, text and dimension, and a selected
    option that is one of the question's), and the current index is inside
    the question set unless that is empty; and every outstanding call is
    well formed: a generation asks for 20, 50 or 100 questions, an analysis
    carries exactly one answer per question of a non-empty set, in order. *)
Theorem answers_follow_questions st :
  reachable st ->
  (state st = ASSESSMENT -> transcript st) /\
  (forall count, In (GenerateCall count) (pending st) -> In count [20; 50; 100]) /\
  (forall finalAnswers user board,
     In (AnalyzeCall finalAnswers user board) (pending st) ->
     Forall2 answered finalAnswers (questions st) /\
     List.length finalAnswers = List.length (questions st) /\
     questions st <> [] /\ user = username st /\ board = leaderboard st).
Proof.
  intros Hr. destruct (reachable_Phase_Sound st Hr) as [HP HS].
  split; [|split].
  - intros Hs. apply (sound_session st HS). now left.
  - intros count Hin. exact (sound_calls st HS _ Hin).
  - intros fa user board Hin.
    destruct (sound_calls st HS _ Hin) as [Hf Hne].
    repeat split; try assumption.
    + exact (Forall2_length Hf).
    + apply (Phase_AnalyzeCall st fa user board HP Hin).
    + apply (Phase_AnalyzeCall st fa user board HP Hin).
Qed.

(** X8.  Nobody is past the login without a name.  In every reachable state
    other than BOOTING and AUTH the username has 3 code units or more after
    trimming, and no event changes it any more. *)
Theorem logged_in_username st :
  reachable st -> state st <> BOOTING -> state st <> AUTH ->
  (3 <= String.length (Text.trim (username st)))%nat /\
  (forall now ev st', step now ev st = Some st' -> username st' = username st).
Proof.
  intros Hr Hb Ha. destruct (reachable_Phase_Sound st Hr) as [HP HS].
  split; [now apply (sound_login st HS)|].
  intros now ev st' Hstep.
  assert (Hc : forall a b, username (commit now a b) = username b).
  { intros a b. destruct (commit_cases now a b) as [-> | ->]; reflexivity. }
  assert (Hi : forall x, username (clearInterval x) = username x).
  { intros x. unfold clearInterval.
    now destruct (take isInterval (pending x)) as [[? ?]|]. }
  destruct ev; cbn [step] in Hstep;
    repeat match type of Hstep with
           | context [match ?x with _ => _ end] =>
               destruct x eqn:?; try discriminate
           end;
    injection Hstep as <-; rewrite ?Hc;
    unfold handleLogin, startAssessment, startAssessment_resolved,
      startAssessment_rejected, finishAssessment_resolved,
      finishAssessment_rejected, closeDossier, rebootSystem, handleAnswer;
    cbv zeta;
    repeat match goal with
           | |- context [if ?x then _ else _] => destruct x
           | |- context [match ?x with _ => _ end] => destruct x
           end;
    try reflexivity;
    try (destruct (state st); simpl in *; congruence);
    match goal with
    | |- username ?a = _ =>
        change (username a) with (username (clearInterval (set_pending l st)))
    end;
    now rewrite Hi.
Qed.

(** X9.  The failure view is never blank.  In every reachable ERROR state
    the message is ["CONNECTION FAILED: "] or ["ANALYSIS FAILED: "]
    followed by a non-empty cause, and the recovery action is offered. *)
Theorem error_view_is_worded st :
  reachable st -> state st = ERROR ->
  errorWorded (errorMsg st) /\
  forall now, step now RebootSystem st = Some (set_state MENU st).
Proof.
  intros Hr Hs. destruct (reachable_Phase_Sound st Hr) as [HP HS].
  split; [now apply (sound_error st HS)|].
  intros now. cbn [step]. rewrite Hs. simpl. unfold commit, rebootSystem. simpl.
  now rewrite andb_false_r.
Qed.

(** X5.  Where the component can get stuck.  A reachable state offers no
    event at all (no control, no timer, no settlement) exactly when it
    shows the assessment and no answer button can be pressed: the question
    set is empty, or the current question has no option.  Every other
    reachable state has a way on. *)
Theorem stuck_only_without_options st :
  reachable st ->
  ((forall now ev, step now ev st = None) <->
   (state st = ASSESSMENT /\ noOption st)).
Proof.
  intros Hr. destruct (reachable_Phase_Sound st Hr) as [HP HS]. split.
  - intros Hnone.
    destruct HP as [Hs Hp|Hs Hp|Hs Hp|? ? ? Hs Hp|Hs Hp|Hs Hp Hok|? ? ? Hs Hp|Hs Hp|Hs Hp|Hs Hp].
    + specialize (Hnone 0 BootElapsed). cbn [step] in Hnone.
      rewrite Hp in Hnone. discriminate.
    + specialize (Hnone 0 (Change "")). cbn [step] in Hnone.
      rewrite Hs in Hnone. discriminate.
    + specialize (Hnone 0 (SelectScan SHORT)). cbn [step] in Hnone.
      rewrite Hs in Hnone. discriminate.
    + specialize (Hnone 0 (QuestionsRejected (Error ""))). cbn [step] in Hnone.
      rewrite Hp in Hnone. discriminate.
    + specialize (Hnone 0 AssessmentTimerElapsed). cbn [step] in Hnone.
      rewrite Hp in Hnone. discriminate.
    + split; [exact Hs|]. unfold noOption.
      destruct (questions st) as [|q0 qs] eqn:Hqs; [exact I|].
      destruct (js_index (q0 :: qs) (currentQuestionIndex st)) as [q|] eqn:Hq;
        [|exact I].
      destruct (q_options q) as [|o os] eqn:Ho; [reflexivity|].
      specialize (Hnone 0 (ChooseOption o)). cbn [step] in Hnone.
      rewrite Hs in Hnone. unfold optionShown in Hnone.
      rewrite Hqs, Hq, Ho in Hnone. simpl in Hnone.
      rewrite String.eqb_refl in Hnone. discriminate.
    + specialize (Hnone 0 (AnalysisRejected (Error ""))). cbn [step] in Hnone.
      rewrite Hp in Hnone. discriminate.
    + specialize (Hnone 0 ResultTimerElapsed). cbn [step] in Hnone.
      rewrite Hp in Hnone. discriminate.
    + specialize (Hnone 0 CloseDossier). cbn [step] in Hnone.
      rewrite Hs in Hnone. simpl in Hnone.
      pose proof (sound_report st HS (or_introl Hs)) as Hrep.
      destruct (report st); [discriminate | contradiction].
    + specialize (Hnone 0 RebootSystem). cbn [step] in Hnone.
      rewrite Hs in Hnone. discriminate.
  - intros [Hs Hno] now ev.
    assert (Hp : pending st = []).
    { destruct HP as [H|H|H|? ? ? H|H|H Hp|? ? ? H|H|H|H];
        try (rewrite Hs in H; discriminate). exact Hp. }
    destruct ev; cbn [step]; rewrite ?Hs, ?Hp; simpl; try reflexivity.
    assert (Hshown : optionShown option st = false).
    { unfold optionShown, noOption in *.
      destruct (questions st) as [|q0 qs]; [reflexivity|].
      destruct (js_index (q0 :: qs) (currentQuestionIndex st)) as [q|];
        [|reflexivity].
      now rewrite Hno. }
    now rewrite Hshown.
Qed.

(** *** The question timer *)

Lemma AppState_eqb_eq a b : AppState_eqb a b = true -> a = b.
Proof. destruct a, b; simpl; congruence. Qed.

Lemma timed_commit t now old new :
  (state old = ASSESSMENT -> questionStartTime old <= t) -> t <= now ->
  questionStartTime new = questionStartTime old ->
  Forall (fun a => 0 <= timeTaken a) (answers new) ->
  (forall finalAnswers user board,
     In (AnalyzeCall finalAnswers user board) (pending new) ->
     Forall (fun a => 0 <= timeTaken a) finalAnswers) ->
  timed now (commit now old new).
Proof.
  intros Hold Hle Hq Ha Hc. unfold timed, commit.
  destruct ((negb (AppState_eqb (state old) (state new))
             || negb (currentQuestionIndex old =? currentQuestionIndex new))
            && AppState_eqb (state new) ASSESSMENT) eqn:E.
  - destruct new; simpl in *. repeat split; auto. intros; lia.
  - repeat split; auto. intros Hs. rewrite Hs in E. simpl in E.
    rewrite andb_true_r in E. apply orb_false_iff in E. destruct E as [E _].
    apply negb_false_iff, AppState_eqb_eq in E. rewrite Hq.
    specialize (Hold E). lia.
Qed.

Ltac timed_fields :=
  simpl; intros;
  repeat match goal with
         | E : _ \/ _ |- _ => destruct E
         | E : False |- _ => destruct E
         | E : _ = AnalyzeCall _ _ _ |- _ => first [discriminate E | injection E as <- <- <-]
         end;
  try discriminate; try lia; auto;
  try match goal with
      | T : forall fa u b, _ -> Forall _ fa |- Forall _ ?fa =>
          solve [eapply T; simpl; eauto 6]
      end.

Lemma timed_step t now ev st st' :
  Phase st -> timed t st -> t <= now ->
  step now ev st = Some st' -> timed now st'.
Proof.
  intros HP (T1 & T2 & T3) Hle Hstep. unfold step in Hstep.
  destruct st as [s u qs ans i r em lp lb t0 sto p].
  destruct ev; simpl in Hstep;
    destruct HP as [| | | | |Hs Hp Hok| | | |]; simpl in *; subst;
    simpl in Hstep; try discriminate.
  - injection Hstep as <-. apply (timed_commit t); timed_fields.
  - injection Hstep as <-. unfold timed. repeat split; timed_fields.
  - destruct (negb _); [|discriminate]. injection Hstep as <-.
    unfold handleLogin. simpl. destruct (_ <? _)%nat;
      apply (timed_commit t); timed_fields.
  - injection Hstep as <-. apply (timed_commit t); timed_fields.
  - destruct (_ && _); [|discriminate]. injection Hstep as <-.
    unfold timed. repeat split; timed_fields.
  - destruct (_ && _); [|discriminate]. injection Hstep as <-.
    unfold timed. repeat split; timed_fields.
  - injection Hstep as <-. apply (timed_commit t); timed_fields.
  - injection Hstep as <-. apply (timed_commit t); timed_fields.
  - injection Hstep as <-. apply (timed_commit t); timed_fields.
  - destruct (optionShown option _) eqn:Hshown; [|discriminate].
    injection Hstep as <-.
    apply optionShown_inv in Hshown. simpl in Hshown.
    destruct Hshown as (q & Hq & _ & _).
    unfold handleAnswer. simpl. rewrite Hq.
    assert (Hnew : Forall (fun a => 0 <= timeTaken a)
                     (ans ++ [mkAnswer (q_id q) (q_text q) option
                                       (q_dimension q) (now - t0)])).
    { apply Forall_app. split; [exact T2|].
      constructor; [simpl; specialize (T1 eq_refl); lia | constructor]. }
    destruct (i <? Z.of_nat (List.length qs) - 1);
      apply (timed_commit t); timed_fields.
  - injection Hstep as <-. apply (timed_commit t); timed_fields.
  - injection Hstep as <-. apply (timed_commit t); timed_fields.
  - injection Hstep as <-. apply (timed_commit t); timed_fields.
  - destruct r; [|discriminate]. injection Hstep as <-.
    apply (timed_commit t); timed_fields.
  - injection Hstep as <-. apply (timed_commit t); timed_fields.
Qed.

Lemma timed_run evs : forall t st st',
  Phase st -> timed t st -> ordered t evs -> run evs st = Some st' ->
  exists t', timed t' st'.
Proof.
  induction evs as [|[now ev] evs IH]; intros t st st' HP HT Ho Hrun;
    simpl in Hrun.
  - injection Hrun as <-. now exists t.
  - destruct Ho as [Hle Ho].
    destruct (step now ev st) as [st1|] eqn:H1; [|discriminate].
    apply (IH now st1 st'); try assumption.
    + now apply (Phase_step now ev st).
    + now apply (timed_step t now ev st).
Qed.

(** X7.  Elapsed times are never negative when the clock does not go back.
    On every run from the mount whose clock readings never decrease, each
    recorded answer, and each answer sent for analysis, has a
    non-negative [timeTaken]. *)
Theorem elapsed_times_nonnegative t0 date stored evs st :
  ordered t0 evs ->
  run evs (mount date (initial stored)) = Some st ->
  Forall (fun a => 0 <= timeTaken a) (answers st) /\
  (forall finalAnswers user board,
     In (AnalyzeCall finalAnswers user board) (pending st) ->
     Forall (fun a => 0 <= timeTaken a) finalAnswers).
Proof.
  intros Ho Hrun.
  assert (HT : timed t0 (mount date (initial stored))).
  { destruct stored; unfold timed; simpl; repeat split; try discriminate;
      try constructor; intros ? ? ? [E|[]]; discriminate E. }
  destruct (timed_run evs t0 _ _ (Phase_mount date stored) HT Ho Hrun)
    as (t' & _ & H2 & H3).
  now split.
Qed.

(** *** The display *)

Lemma tick_nonneg scale prev rnd :
  rounding -> (0 <= scale)%Q -> (0 <= rnd)%Q -> (0 <= prev)%Q ->
  (0 <= tick scale prev rnd)%Q.
Proof.
  intros (Hmono & H0 & _ & _) Hscale Hrnd Hprev. unfold tick.
  assert (Hd : (0 <= fl (rnd * scale))%Q).
  { rewrite <- H0. apply Hmono. now apply Qmult_le_0_compat. }
  apply Q.min_glb; [|lra]. rewrite <- H0. apply Hmono. lra.
Qed.

Lemma displayBounded_questionStartTime t st :
  displayBounded st -> displayBounded (set_questionStartTime t st).
Proof. now destruct st. Qed.

Lemma displayBounded_commit now old new :
  displayBounded new -> displayBounded (commit now old new).
Proof.
  intros HD. destruct (commit_cases now old new) as [-> | ->];
    [exact HD | now apply displayBounded_questionStartTime].
Qed.

Ltac display_fields :=
  unfold displayBounded; simpl; repeat split; intros;
  repeat match goal with
         | E : _ \/ _ |- _ => destruct E
         | E : False |- _ => destruct E
         | E : _ = Interval _ _ |- _ =>
             first [discriminate E | injection E as <- <-]
         end;
  try discriminate; try lra; auto;
  try match goal with
      | D : forall ms scale, _ -> (0 <= scale)%Q |- (0 <= ?sc)%Q =>
          solve [eapply D; simpl; eauto 6]
      end.

Lemma displayBounded_step now ev st st' :
  rounding -> Phase st -> displayBounded st ->
  step now ev st = Some st' -> displayBounded st'.
Proof.
  intros HR HP (D1 & D2 & D3 & D4) Hstep. unfold step in Hstep.
  destruct st as [s u qs ans i r em lp lb t0 sto p].
  destruct ev; simpl in Hstep;
    destruct HP as [| | | | |Hs Hp Hok| | | |]; simpl in *; subst;
    simpl in Hstep; try discriminate.
  - injection Hstep as <-. apply displayBounded_commit. display_fields.
  - injection Hstep as <-. display_fields.
  - destruct (negb _); [|discriminate]. injection Hstep as <-.
    unfold handleLogin. simpl. destruct (_ <? _)%nat;
      apply displayBounded_commit; display_fields.
  - injection Hstep as <-. apply displayBounded_commit. display_fields.
  - destruct (Qle_bool 0 rnd && _) eqn:G; [|discriminate].
    injection Hstep as <-. apply andb_true_iff in G. destruct G as [G _].
    apply Qle_bool_iff in G.
    assert (Hsc : (0 <= scale)%Q) by (apply (D4 ms); now left).
    pose proof (tick_nonneg scale lp rnd HR Hsc G D1).
    pose proof (tick_le_90 scale lp rnd).
    display_fields.
  - destruct (Qle_bool 0 rnd && _) eqn:G; [|discriminate].
    injection Hstep as <-. apply andb_true_iff in G. destruct G as [G _].
    apply Qle_bool_iff in G.
    assert (Hsc : (0 <= scale)%Q) by (apply (D4 ms); now left).
    pose proof (tick_nonneg scale lp rnd HR Hsc G D1).
    pose proof (tick_le_90 scale lp rnd).
    display_fields.
  - injection Hstep as <-. apply displayBounded_commit. display_fields.
  - injection Hstep as <-. apply displayBounded_commit. display_fields.
  - injection Hstep as <-. apply displayBounded_commit. display_fields.
  - destruct (optionShown option _); [|discriminate]. injection Hstep as <-.
    apply displayBounded_commit. unfold handleAnswer. simpl.
    destruct (js_index qs i); [|display_fields].
    destruct (i <? Z.of_nat (List.length qs) - 1); display_fields.
  - injection Hstep as <-. apply displayBounded_commit. display_fields.
  - injection Hstep as <-. apply displayBounded_commit. display_fields.
  - injection Hstep as <-. apply displayBounded_commit. display_fields.
  - destruct r; [|discriminate]. injection Hstep as <-.
    apply displayBounded_commit. display_fields.
  - injection Hstep as <-. apply displayBounded_commit. display_fields.
Qed.

Lemma displayBounded_run evs : forall st st',
  rounding -> Phase st -> displayBounded st ->
  run evs st = Some st' -> displayBounded st'.
Proof.
  induction evs as [|[now ev] evs IH]; intros st st' HR HP HD Hrun;
    simpl in Hrun.
  - now injection Hrun as <-.
  - destruct (step now ev st) as [st1|] eqn:H1; [|discriminate].
    apply (IH st1); try assumption.
    + now apply (Phase_step now ev st).
    + now apply (displayBounded_step now ev st).
Qed.

(** X11.  The loading views never need the clamp.  Under a rounding that is
    monotone and leaves numbers as they are, in every reachable state the
    simulated progress is between 0 and 100, so the bar of [renderLoading]
    is filled to exactly that value and shows a percentage from 0 to 100;
    and while a gateway call is outstanding the progress is at most 90,
    however long the call hangs. *)
Theorem loading_display_in_range label st :
  rounding -> reachable st ->
  ((0 <= loadingProgress st)%Q /\ (loadingProgress st <= 100)%Q) /\
  (TerminalUI.width (renderLoading label st) == loadingProgress st)%Q /\
  0 <= TerminalUI.percent (renderLoading label st) <= 100 /\
  (existsb isCall (pending st) = true -> (loadingProgress st <= 90)%Q).
Proof.
  intros HR (date & stored & evs & Hrun).
  assert (HD : displayBounded st).
  { apply (displayBounded_run evs _ _ HR (Phase_mount date stored)); [|exact Hrun].
    destruct stored; display_fields. }
  assert (HP : Phase st)
    by (eapply Phase_run; [apply (Phase_mount date stored) | exact Hrun]).
  destruct HD as (D1 & D2 & D3 & _).
  destruct (TerminalUIFacts.LoadingBar_in_range (loadingProgress st) (Some label)
              D1 D2) as [Hw Hpc].
  repeat split; try assumption; try apply Hpc.
  intros Hcall. apply D3.
  destruct HP as [Hs Hp|Hs Hp|Hs Hp|? ? ? Hs Hp|Hs Hp|Hs Hp|? ? ? Hs Hp|Hs Hp|Hs Hp|Hs Hp];
    rewrite Hp in *; simpl in *; congruence.
Qed.

(** *** The assessment view *)

(** X12.  The assessment view never fails on a reachable state.  Showing the
    assessment, [renderAssessment] either renders nothing (exactly when
    there are no questions), or renders the current question: its text, one
    button per option (the options the answer event is offered for), and
    the title [QUERY n/len] where [n] is the number of answers so far plus
    one.  The bar never leaves its track, and on the first question, under
    a rounding that is monotone and exact on 0, it reads 0. *)
Theorem assessment_view_renders st :
  reachable st -> state st = ASSESSMENT ->
  (questions st = [] /\ renderAssessment st = Normal None) \/
  (exists q v,
     js_index (questions st) (currentQuestionIndex st) = Some q /\
     renderAssessment st = Normal (Some v) /\
     prompt v = q_text q /\ buttons v = q_options q /\
     title v = ("QUERY " ++ Text.ofZ (Z.of_nat (List.length (answers st)) + 1)
                ++ "/" ++ Text.ofZ (Z.of_nat (List.length (questions st))))%string /\
     (forall o, optionShown o st = true <-> In o (buttons v)) /\
     ((0 <= TerminalUI.width (bar v))%Q /\ (TerminalUI.width (bar v) <= 100)%Q) /\
     (rounding -> currentQuestionIndex st = 0 ->
      TerminalUI.percent (bar v) = 0 /\ (TerminalUI.width (bar v) == 0)%Q)).
Proof.
  intros Hr Hs. destruct (reachable_Phase_Sound st Hr) as [HP HS].
  assert (Hok : sessionOK st).
  { destruct HP as [H|H|H|? ? ? H|H|H ? Hok|? ? ? H|H|H|H];
      try (rewrite Hs in H; discriminate). exact Hok. }
  destruct (sound_session st HS (or_introl Hs)) as [_ Hlt].
  destruct Hok as [Hi Hlen].
  unfold renderAssessment, optionShown.
  destruct (questions st) as [|q0 qs] eqn:Hqs; [left; now split|].
  right. specialize (Hlt ltac:(discriminate)).
  destruct (js_index (q0 :: qs) (currentQuestionIndex st)) as [q|] eqn:Hq.
  2:{ apply js_index_None in Hq. lia. }
  exists q. eexists. split; [reflexivity|]. split; [reflexivity|].
  cbn [prompt buttons title bar]. rewrite Hlen.
  split; [reflexivity|]. split; [reflexivity|]. split; [reflexivity|].
  split; [|split].
  - intros o. rewrite existsb_exists. split.
    + intros (o' & Hin & Heq). apply String.eqb_eq in Heq. now subst.
    + intros Hin. exists o. split; [exact Hin | apply String.eqb_refl].
  - unfold TerminalUI.LoadingBar. cbn [TerminalUI.width]. split.
    + apply Q.min_glb; [lra | apply Q.le_max_l].
    + apply Q.le_min_l.
  - intros HR H0. rewrite H0.
    pose proof (fl_proper HR) as Hp. destruct HR as (_ & Hz & _ & _).
    set (len := inject_Z (Z.of_nat (List.length (q0 :: qs)))).
    assert (E1 : (fl (inject_Z 0 / len) == 0)%Q).
    { rewrite (Hp (inject_Z 0 / len)%Q 0%Q); [exact Hz|].
      unfold Qdiv. apply Qmult_0_l. }
    assert (E2 : (fl (fl (inject_Z 0 / len) * 100) == 0)%Q).
    { rewrite (Hp (fl (inject_Z 0 / len) * 100)%Q 0%Q); [exact Hz|].
      rewrite E1. apply Qmult_0_l. }
    destruct (TerminalUIFacts.LoadingBar_in_range
                (fl (fl (inject_Z 0 / len) * 100)) (Some "EVALUATION PROGRESS"))
      as [Hw _]; try (rewrite E2; lra).
    split.
    + unfold TerminalUI.LoadingBar. cbn [TerminalUI.percent].
      unfold TerminalUI.Math_round.
      rewrite (Qfloor_comp _ (0 + (1 # 2))%Q) by (now rewrite E2). reflexivity.
    + now rewrite Hw.
Qed.

(** *** Busy states *)

(** X18.  No user action is accepted while the component is busy.  In every
    reachable state with anything outstanding (the boot timer, a gateway
    call with its interval, a settle timer), every action of the user on a
    control is refused; so no second gateway call can be started while one
    is outstanding. *)
Theorem no_user_action_while_busy now ev st :
  reachable st -> pending st <> [] -> isUserEvent ev = true ->
  step now ev st = None.
Proof.
  intros Hr Hbusy Hu. destruct (reachable_Phase_Sound st Hr) as [HP _].
  destruct HP as [Hs Hp|Hs Hp|Hs Hp|? ? ? Hs Hp|Hs Hp|Hs Hp|? ? ? Hs Hp|Hs Hp|Hs Hp|Hs Hp];
    try contradiction;
    destruct ev; try discriminate Hu; cbn [step]; now rewrite Hs.
Qed.

(** X17.  A settled call stops its interval.  In every reachable state,
    once the outstanding gateway call resolves or rejects, no interval is
    left and no interval callback is offered any more; a resolution sets
    the display to 100, a rejection leaves it where it was. *)
Theorem settling_stops_the_interval now ev st st' :
  reachable st -> isSettlement ev = true -> step now ev st = Some st' ->
  existsb isInterval (pending st') = false /\
  (forall now' rnd, step now' (Tick rnd) st' = None) /\
  (if isResolution ev then loadingProgress st' = 100%Q
   else loadingProgress st' = loadingProgress st).
Proof.
  intros Hr Hset Hstep. destruct (reachable_Phase_Sound st Hr) as [HP _].
  assert (Hp : forall a b, pending (commit now a b) = pending b).
  { intros a b. destruct (commit_cases now a b) as [-> | ->]; reflexivity. }
  assert (Hl : forall a b, loadingProgress (commit now a b) = loadingProgress b).
  { intros a b. destruct (commit_cases now a b) as [-> | ->]; reflexivity. }
  assert (Hgoal : forall p lp,
    pending st' = p -> existsb isInterval p = false ->
    (if isResolution ev then lp = 100%Q else lp = loadingProgress st) ->
    loadingProgress st' = lp ->
    existsb isInterval (pending st') = false /\
    (forall now' rnd, step now' (Tick rnd) st' = None) /\
    (if isResolution ev then loadingProgress st' = 100%Q
     else loadingProgress st' = loadingProgress st)).
  { intros p lp E1 E2 E3 E4. rewrite E1, E4. split; [exact E2|]. split; [|exact E3].
    intros now' rnd. cbn [step]. rewrite E1.
    destruct p as [|t p]; [reflexivity|].
    destruct (find isInterval (t :: p)) as [x|] eqn:Hf; [|reflexivity].
    apply find_some in Hf. destruct Hf as [Hin Hx].
    assert (Hex : existsb isInterval (t :: p) = true)
      by (apply existsb_exists; now exists x).
    congruence. }
  destruct ev; try discriminate Hset; cbn [step] in Hstep;
    destruct HP as [Hs Hq|Hs Hq|Hs Hq|? ? ? Hs Hq|Hs Hq|Hs Hq|? ? ? Hs Hq|Hs Hq|Hs Hq|Hs Hq];
    rewrite Hq in Hstep; simpl in Hstep; try discriminate;
    injection Hstep as <-.
  - apply (Hgoal [AssessmentTimer] 100%Q); try reflexivity.
    + now rewrite Hp.
    + now rewrite Hl.
  - apply (Hgoal [] (loadingProgress st)); try reflexivity.
    + now rewrite Hp.
    + now rewrite Hl.
  - apply (Hgoal [ResultTimer] 100%Q); try reflexivity.
    + now rewrite Hp.
    + now rewrite Hl.
  - apply (Hgoal [] (loadingProgress st)); try reflexivity.
    + now rewrite Hp.
    + now rewrite Hl.
Qed.

End ClientFacts.

(** ** The gateway *)

Module GatewayFacts.

Import Gateway.

Lemma lookup_assign_same props key v :
  lookup key (assign props key v) = Some v.
Proof.
  induction props as [|[k w] props IH]; simpl.
  - now rewrite String.eqb_refl.
  - destruct (String.eqb k key) eqn:E; simpl; rewrite E; [reflexivity | exact IH].
Qed.

Lemma lookup_assign_other props key key' v :
  key' <> key -> lookup key (assign props key' v) = lookup key props.
Proof.
  intros Hne. induction props as [|[k w] props IH]; simpl.
  - destruct (String.eqb_spec key' key); [contradiction | reflexivity].
  - destruct (String.eqb_spec k key') as [->|Hk]; simpl.
    + destruct (String.eqb_spec key' key); [contradiction | reflexivity].
    + destruct (String.eqb k key); [reflexivity | exact IH].
Qed.

(** C2, amended.  [generateAssessmentQuestions(count)] resolves exactly when
    the key is present, the model's response carries a non-empty text and
    that text decodes, and it then returns the decoded payload as it is.
    Nothing is checked on the payload; so the result has [count] questions
    with 4 options each exactly when the model's payload has. *)
Theorem generation_returns_payload
  (API_KEY : option string)
  (generateContent : GenerateContentParameters -> Completion GenerateContentResponse)
  (JSON_parse : string -> Completion JSON) (count : Z) (v : JSON) :
  generateAssessmentQuestions API_KEY generateContent JSON_parse count = Normal v <->
  exists key rawText,
    API_KEY = Some key /\ key <> "" /\
    generateContent (questionRequest count) = Normal (mkResponse (Some rawText)) /\
    rawText <> "" /\
    JSON_parse rawText = Normal v.
Proof.
  unfold generateAssessmentQuestions, getAIClient, tryCatch, bindC.
  fold (questionRequest count). split.
  - destruct API_KEY as [[|c key]|]; simpl; try discriminate.
    destruct (generateContent (questionRequest count)) as [[txt]|e];
      simpl; try discriminate.
    destruct txt as [[|d rawText]|]; simpl; try discriminate.
    destruct (JSON_parse (String d rawText)) as [w|e] eqn:Hp;
      simpl; try discriminate.
    intros [= <-]. exists (String c key), (String d rawText).
    repeat split; try reflexivity; try assumption; discriminate.
  - intros (key & rawText & -> & Hk & -> & Hr & Hp).
    destruct key; [contradiction|]. destruct rawText; [contradiction|].
    simpl. now rewrite Hp.
Qed.

(** C9.  Whenever [analyzePersonality(answers, username)] resolves, what it
    returns is an object whose [subjectName] is the given username and
    whose [generatedAt] is the time stamp taken at the return, whatever the
    decoded payload was and whether or not it had such fields itself; every
    other property is the payload's. *)
Theorem analysis_attaches_subject
  (API_KEY : option string)
  (generateContent : GenerateContentParameters -> Completion GenerateContentResponse)
  (JSON_parse : string -> Completion JSON) (JSON_stringify : JSON -> string)
  (isoNow : string) (answers : list Answer) (username : string) (r : JSON) :
  analyzePersonality API_KEY generateContent JSON_parse JSON_stringify isoNow
                     answers username = Normal r ->
  exists props analysis,
    r = JObject props /\
    lookup "subjectName" props = Some (JString username) /\
    lookup "generatedAt" props = Some (JString isoNow) /\
    (forall key, key <> "subjectName" -> key <> "generatedAt" ->
       lookup key props = lookup key (spread analysis)).
Proof.
  unfold analyzePersonality, getAIClient, tryCatch, bindC.
  destruct API_KEY as [[|c key]|]; simpl; try discriminate.
  destruct (generateContent _) as [[txt]|e]; simpl; try discriminate.
  destruct txt as [[|d rawText]|]; simpl; try discriminate.
  destruct (JSON_parse (String d rawText)) as [analysis|e];
    simpl; try discriminate.
  intros [= <-]. eexists. exists analysis. split; [reflexivity|].
  split; [|split].
  - rewrite lookup_assign_other by discriminate. apply lookup_assign_same.
  - apply lookup_assign_same.
  - intros k H1 H2. rewrite !lookup_assign_other; congruence.
Qed.

(** X13.  The ways [generateAssessmentQuestions] fails, and no other: the
    key is missing or empty (and then the model is not asked at all: the
    error is the configuration error whatever the model would do); or the
    model call itself throws, and its error is passed on unchanged; or the
    response has no text, giving the no-data error; or the text does not
    decode, and the parser's error is passed on unchanged. *)
Theorem generation_failures
  (API_KEY : option string)
  (generateContent : GenerateContentParameters -> Completion GenerateContentResponse)
  (JSON_parse : string -> Completion JSON) (count : Z) (e : JsError) :
  generateAssessmentQuestions API_KEY generateContent JSON_parse count = Throw e <->
  (keyless API_KEY /\ e = Error "API_KEY not found in environment.") \/
  (~ keyless API_KEY /\
   (generateContent (questionRequest count) = Throw e \/
    (exists r, generateContent (questionRequest count) = Normal r /\ textless r /\
               e = Error "No data received from construct.") \/
    (exists rawText,
       generateContent (questionRequest count) = Normal (mkResponse (Some rawText)) /\
       rawText <> "" /\ JSON_parse rawText = Throw e))).
Proof.
  unfold generateAssessmentQuestions, getAIClient, tryCatch, bindC, keyless, textless.
  fold (questionRequest count).
  destruct API_KEY as [[|c key]|]; simpl.
  - split; [intros [= <-]; left; auto|].
    intros [[_ ->]|[Hk _]]; [reflexivity | exfalso; apply Hk; auto].
  - assert (Hk : ~ (Some (String c key) = None \/ Some (String c key) = Some ""))
      by (intros [E|E]; discriminate E).
    destruct (generateContent (questionRequest count)) as [[txt]|e0]; simpl.
    + destruct txt as [[|d rawText]|]; simpl.
      * split.
        -- intros [= <-]. right. split; [exact Hk|]. right. left.
           eexists. split; [reflexivity|]. split; [now right | reflexivity].
        -- intros [[[E|E] _]|[_ [E|[(r & E & _ & ->)|(t & E & Ht & _)]]]];
             try discriminate; try reflexivity.
           injection E as <-. contradiction.
      * destruct (JSON_parse (String d rawText)) as [w|e1] eqn:Hp; simpl.
        -- split; [discriminate|].
           intros [[[E|E] _]|[_ [E|[(r & E & [T|T] & _)|(t & E & Ht & Hpe)]]]];
             try discriminate.
           ++ injection E as <-. discriminate T.
           ++ injection E as <-. discriminate T.
           ++ injection E as <-. congruence.
        -- split.
           ++ intros [= <-]. right. split; [exact Hk|]. right. right.
              exists (String d rawText). repeat split; try discriminate; auto.
           ++ intros [[[E|E] _]|[_ [E|[(r & E & [T|T] & _)|(t & E & Ht & Hpe)]]]];
                try discriminate.
              ** injection E as <-. discriminate T.
              ** injection E as <-. discriminate T.
              ** injection E as <-. congruence.
      * split.
        -- intros [= <-]. right. split; [exact Hk|]. right. left.
           eexists. split; [reflexivity|]. split; [now left | reflexivity].
        -- intros [[[E|E] _]|[_ [E|[(r & E & _ & ->)|(t & E & Ht & _)]]]];
             try discriminate; reflexivity.
    + split.
      * intros [= <-]. right. split; [exact Hk|]. now left.
      * intros [[[E|E] _]|[_ [E|[(r & E & _)|(t & E & _)]]]];
          try discriminate; congruence.
  - split; [intros [= <-]; left; auto|].
    intros [[_ ->]|[Hk _]]; [reflexivity | exfalso; apply Hk; auto].
Qed.

(** X14.  The ways [analyzePersonality] fails, and no other: as for the
    generation, with the analysis request (the rows of the answers,
    serialized) and the error ["Analysis Protocol Failed."] for a response
    without text. *)
Theorem analysis_failures
  (API_KEY : option string)
  (generateContent : GenerateContentParameters -> Completion GenerateContentResponse)
  (JSON_parse : string -> Completion JSON) (JSON_stringify : JSON -> string)
  (isoNow : string) (answers : list Answer) (username : string) (e : JsError) :
  analyzePersonality API_KEY generateContent JSON_parse JSON_stringify isoNow
                     answers username = Throw e <->
  (keyless API_KEY /\ e = Error "API_KEY not found in environment.") \/
  (~ keyless API_KEY /\
   (generateContent (analysisRequest JSON_stringify answers) = Throw e \/
    (exists r, generateContent (analysisRequest JSON_stringify answers) = Normal r /\
               textless r /\ e = Error "Analysis Protocol Failed.") \/
    (exists rawText,
       generateContent (analysisRequest JSON_stringify answers)
         = Normal (mkResponse (Some rawText)) /\
       rawText <> "" /\ JSON_parse rawText = Throw e))).
Proof.
  unfold analyzePersonality, getAIClient, tryCatch, bindC, keyless, textless.
  fold (analysisRequest JSON_stringify answers).
  destruct API_KEY as [[|c key]|]; simpl.
  - split; [intros [= <-]; left; auto|].
    intros [[_ ->]|[Hk _]]; [reflexivity | exfalso; apply Hk; auto].
  - assert (Hk : ~ (Some (String c key) = None \/ Some (String c key) = Some ""))
      by (intros [E|E]; discriminate E).
    destruct (generateContent (analysisRequest JSON_stringify answers))
      as [[txt]|e0]; simpl.
    + destruct txt as [[|d rawText]|]; simpl.
      * split.
        -- intros [= <-]. right. split; [exact Hk|]. right. left.
           eexists. split; [reflexivity|]. split; [now right | reflexivity].
        -- intros [[[E|E] _]|[_ [E|[(r & E & _ & ->)|(t & E & Ht & _)]]]];
             try discriminate; try reflexivity.
           injection E as <-. contradiction.
      * destruct (JSON_parse (String d rawText)) as [w|e1] eqn:Hp; simpl.
        -- split; [discriminate|].
           intros [[[E|E] _]|[_ [E|[(r & E & [T|T] & _)|(t & E & Ht & Hpe)]]]];
             try discriminate.
           ++ injection E as <-. discriminate T.
           ++ injection E as <-. discriminate T.
           ++ injection E as <-. congruence.
        -- split.
           ++ intros [= <-]. right. split; [exact Hk|]. right. right.
              exists (String d rawText). repeat split; try discriminate; auto.
           ++ intros [[[E|E] _]|[_ [E|[(r & E & [T|T] & _)|(t & E & Ht & Hpe)]]]];
                try discriminate.
              ** injection E as <-. discriminate T.
              ** injection E as <-. discriminate T.
              ** injection E as <-. congruence.
      * split.
        -- intros [= <-]. right. split; [exact Hk|]. right. left.
           eexists. split; [reflexivity|]. split; [now left | reflexivity].
        -- intros [[[E|E] _]|[_ [E|[(r & E & _ & ->)|(t & E & Ht & _)]]]];
             try discriminate; reflexivity.
    + split.
      * intros [= <-]. right. split; [exact Hk|]. now left.
      * intros [[[E|E] _]|[_ [E|[(r & E & _)|(t & E & _)]]]];
          try discriminate; congruence.
  - split; [intros [= <-]; left; auto|].
    intros [[_ ->]|[Hk _]]; [reflexivity | exfalso; apply Hk; auto].
Qed.

End GatewayFacts.

(** ** The gateway and the component together *)

Section WiringFacts.

Context `{platform : Platform}.

Import Gateway Wiring.

(** X15.  The gateway's own failures, as the user sees them.  With a
    generation outstanding, a gateway without key ends in ERROR showing
    ["CONNECTION FAILED: API_KEY not found in environment."], and a model
    response without text in ERROR showing ["CONNECTION FAILED: No data
    received from construct."]; with an analysis outstanding the messages
    are ["ANALYSIS FAILED: API_KEY not found in environment."] and
    ["ANALYSIS FAILED: Analysis Protocol Failed."].  The model is never
    blamed with the fallback causes for these. *)
Theorem gateway_errors_as_shown
  (API_KEY : option string)
  (generateContent : GenerateContentParameters -> Completion GenerateContentResponse)
  (JSON_parse : string -> Completion JSON) (JSON_stringify : JSON -> string)
  (isoNow rndId date : string) (now : Z) (st : App) :
  (forall count rest r,
     take isGenerateCall (pending st) = Some (GenerateCall count, rest) ->
     keyless API_KEY \/
     (generateContent (questionRequest count) = Normal r /\ textless r) ->
     exists ev st',
       generationSettled
         (generateAssessmentQuestions API_KEY generateContent JSON_parse count)
         = Some ev /\
       step now ev st = Some st' /\ state st' = ERROR /\
       errorMsg st' =
         if match API_KEY with Some (String _ _) => true | _ => false end
         then "CONNECTION FAILED: No data received from construct."
         else "CONNECTION FAILED: API_KEY not found in environment.") /\
  (forall finalAnswers user board rest r,
     take isAnalyzeCall (pending st)
       = Some (AnalyzeCall finalAnswers user board, rest) ->
     keyless API_KEY \/
     (generateContent (analysisRequest JSON_stringify finalAnswers) = Normal r /\
      textless r) ->
     exists ev st',
       analysisSettled
         (analyzePersonality API_KEY generateContent JSON_parse JSON_stringify
            isoNow finalAnswers user) rndId date = Some ev /\
       step now ev st = Some st' /\ state st' = ERROR /\
       errorMsg st' =
         if match API_KEY with Some (String _ _) => true | _ => false end
         then "ANALYSIS FAILED: Analysis Protocol Failed."
         else "ANALYSIS FAILED: API_KEY not found in environment.").
Proof.
  split.
  - intros count rest r Ht Hcause.
    assert (E : exists e,
      generateAssessmentQuestions API_KEY generateContent JSON_parse count = Throw e /\
      orElse (err_message e) "UNKNOWN ERROR" =
        if match API_KEY with Some (String _ _) => true | _ => false end
        then "No data received from construct."
        else "API_KEY not found in environment.").
    { unfold generateAssessmentQuestions, getAIClient, tryCatch, bindC.
      fold (questionRequest count).
      destruct API_KEY as [[|c key]|]; simpl; eauto.
      destruct Hcause as [[E|E]|[-> [T|T]]]; try discriminate;
        destruct r as [txt]; simpl in T; subst txt; simpl; eauto. }
    destruct E as (e & -> & Hmsg). simpl.
    eexists. eexists. split; [reflexivity|]. cbn [step]. rewrite Ht.
    split; [reflexivity|]. rewrite state_commit, errorMsg_commit.
    split; [reflexivity|]. unfold startAssessment_rejected. simpl.
    rewrite Hmsg. now destruct API_KEY as [[|? ?]|].
  - intros fa user board rest r Ht Hcause.
    assert (E : exists e,
      analyzePersonality API_KEY generateContent JSON_parse JSON_stringify
        isoNow fa user = Throw e /\
      orElse (err_message e) "DATA CORRUPTED" =
        if match API_KEY with Some (String _ _) => true | _ => false end
        then "Analysis Protocol Failed."
        else "API_KEY not found in environment.").
    { unfold analyzePersonality, getAIClient, tryCatch, bindC.
      fold (analysisRequest JSON_stringify fa).
      destruct API_KEY as [[|c key]|]; simpl; eauto.
      destruct Hcause as [[E|E]|[-> [T|T]]]; try discriminate;
        destruct r as [txt]; simpl in T; subst txt; simpl; eauto. }
    destruct E as (e & -> & Hmsg). simpl.
    eexists. eexists. split; [reflexivity|]. cbn [step]. rewrite Ht.
    split; [reflexivity|]. rewrite state_commit, errorMsg_commit.
    split; [reflexivity|]. unfold finishAssessment_rejected. simpl.
    rewrite Hmsg. now destruct API_KEY as [[|? ?]|].
Qed.

(** X16.  The dossier is the session's.  When the analysis of a reachable
    state's outstanding call resolves with a payload of the report type,
    the model answered the request made of the session's answers with a
    text that decodes to some [analysis]; the report shown is the typed
    reading of that [analysis] with the logged-in username as [subjectName]
    and the gateway's time stamp as [generatedAt]; its score is the [score]
    of the [analysis]; and the entry recorded on the leaderboard carries
    that username and that score. *)
Theorem dossier_is_the_sessions
  (API_KEY : option string)
  (generateContent : GenerateContentParameters -> Completion GenerateContentResponse)
  (JSON_parse : string -> Completion JSON) (JSON_stringify : JSON -> string)
  (isoNow rndId date : string) (now : Z) (st st' : App)
  (finalAnswers : list Answer) (user : string) (board : list LeaderboardEntry)
  (r : JSON) (ev : Event) :
  reachable st ->
  In (AnalyzeCall finalAnswers user board) (pending st) ->
  analyzePersonality API_KEY generateContent JSON_parse JSON_stringify isoNow
                     finalAnswers user = Normal r ->
  analysisSettled (Normal r) rndId date = Some ev ->
  step now ev st = Some st' ->
  exists rep rawText analysis,
    generateContent (analysisRequest JSON_stringify finalAnswers)
      = Normal (mkResponse (Some rawText)) /\
    JSON_parse rawText = Normal analysis /\
    asReport (JObject (assign (assign (spread analysis)
                                      "subjectName" (JString (username st)))
                              "generatedAt" (JString isoNow))) = Some rep /\
    report st' = Some rep /\
    subjectName rep = username st /\ generatedAt rep = isoNow /\
    lookup "score" (spread analysis) = Some (JNumber (score rep)) /\
    leaderboard st' =
      Leaderboard.updatedLB (leaderboard st)
        (mkEntry (username st) (score rep) date rndId).
Proof.
  intros Hr Hin Hres Hset Hstep.
  destruct (reachable_Phase_Sound st Hr) as [HP _].
  destruct (Phase_AnalyzeCall st _ _ _ HP Hin) as (-> & -> & _).
  unfold analysisSettled in Hset.
  destruct (asReport r) as [rep|] eqn:Hrep; [|discriminate].
  injection Hset as <-.
  destruct (record_on_current_board _ _ _ _ _ _ HP Hstep) as (Hlb & _ & Hreport).
  revert Hres. unfold analyzePersonality, getAIClient, tryCatch, bindC.
  fold (analysisRequest JSON_stringify finalAnswers).
  destruct API_KEY as [[|c key]|]; simpl; try discriminate.
  destruct (generateContent (analysisRequest JSON_stringify finalAnswers))
    as [[txt]|e] eqn:Hgen; simpl; try discriminate.
  destruct txt as [[|d rawText]|]; simpl; try discriminate.
  destruct (JSON_parse (String d rawText)) as [analysis|e] eqn:Hparse;
    simpl; try discriminate.
  intros [= <-]. exists rep, (String d rawText), analysis.
  split; [reflexivity|]. split; [exact Hparse|]. split; [exact Hrep|].
  set (props := assign (assign (spread analysis) "subjectName"
                               (JString (username st)))
                       "generatedAt" (JString isoNow)) in *.
  assert (Hn : lookup "subjectName" props = Some (JString (username st))).
  { unfold props. rewrite GatewayFacts.lookup_assign_other by discriminate.
    apply GatewayFacts.lookup_assign_same. }
  assert (Hg : lookup "generatedAt" props = Some (JString isoNow))
    by apply GatewayFacts.lookup_assign_same.
  assert (Hsc : lookup "score" props = lookup "score" (spread analysis)).
  { unfold props. now rewrite !GatewayFacts.lookup_assign_other by discriminate. }
  unfold asReport in Hrep. rewrite Hn, Hg, Hsc in Hrep.
  destruct (lookup "score" (spread analysis)) as [sv|]; [|discriminate].
  repeat match type of Hrep with
         | context [match lookup ?k props with _ => _ end] =>
             destruct (lookup k props); [|discriminate]
         end.
  cbn [asString] in Hrep.
  destruct (asNumber sv) as [n|] eqn:Hsv; [|discriminate].
  repeat match type of Hrep with
         | context [match ?x with _ => _ end] =>
             destruct x; try discriminate
         end.
  injection Hrep as <-. cbn [subjectName generatedAt score].
  destruct sv; try discriminate. injection Hsv as ->.
  repeat split; auto.
Qed.

End WiringFacts.

(** * Part III: worked runs

    Concrete runs of the component and of the gateway, on the platform of
    exact arithmetic and ASCII upper-casing, with [Gateway.parse] decoding
    the texts. *)

Module Runs.

Import Gateway GatewayFacts Samples.

Lemma exact_rounding : rounding.
Proof.
  unfold rounding, exact. repeat split; intros; try reflexivity; assumption.
Defined.

Example seeded_board :
  map lb_score (leaderboard start) = [98; 92; 85] /\
  storage start = Some (leaderboard start).
Proof. split; reflexivity. Qed.

Example first_question_shown :
  exists st,
    run toAssessment start = Some st /\
    state st = ASSESSMENT /\ username st = "CIPHER9" /\
    js_index (questions st) (currentQuestionIndex st) = Some q1 /\
    currentQuestionIndex st = 0 /\ answers st = [] /\
    questionStartTime st = 6500.
Proof.
  eexists. split; [vm_compute; reflexivity|].
  repeat split.
Qed.

Example tie_goes_to_the_earlier_entry :
  map lb_username
      (Leaderboard.recordAll (Leaderboard.seed "d")
         [mkEntry "LATE" 92 "d" "4"; mkEntry "TOP" 99 "d" "5"])
  = ["TOP"; "GHOST_01"; "NEXUS"; "LATE"; "CIPHER"].
Proof. reflexivity. Qed.

Example analysis_recorded :
  exists st,
    run (toAssessment ++ [ (7000, ChooseOption "withdraw");
                           (9000, ChooseOption "tested");
                           (9500, AnalysisResolved sampleReport "k3x9q0zr1"
                                    "2026-01-01T00:00:09.500Z");
                           (10300, ResultTimerElapsed) ]) start = Some st /\
    state st = RESULT /\ report st = Some sampleReport /\
    map lb_username (leaderboard st) = ["GHOST_01"; "NEXUS"; "CIPHER9"; "CIPHER"] /\
    map lb_score (leaderboard st) = [98; 92; 92; 85] /\
    storage st = Some (leaderboard st) /\
    List.length (answers st) = 2%nat /\ currentQuestionIndex st = 1.
Proof.
  eexists. split; [vm_compute; reflexivity|].
  repeat split.
Qed.

Example full_board_drops_the_latest_tie :
  let full := map (fun n => mkEntry "A" (60 - n) "d" "x")
                  [0; 1; 2; 3; 4; 5; 6; 7; 8; 10] in
  map lb_id (Leaderboard.updatedLB full (mkEntry "LATE" 50 "d" "new"))
    = map lb_id full /\
  map lb_score (Leaderboard.updatedLB full (mkEntry "NEXT" 51 "d" "new"))
    = [60; 59; 58; 57; 56; 55; 54; 53; 52; 51] /\
  map lb_score (Leaderboard.updatedLB [] (mkEntry "ONLY" 7 "d" "new")) = [7].
Proof. repeat split. Qed.

(** C8, at a run: after the first answer the assessment still shows, with
    one answer and index 1. *)
Lemma assessment_session_invariant_witness :
  exists st,
    run (toAssessment ++ [(7000, ChooseOption "withdraw")]) start = Some st /\
    state st = ASSESSMENT /\ currentQuestionIndex st = 1 /\
    List.length (answers st) = 1%nat /\ sessionOK st.
Proof.
  eexists. split; [vm_compute; reflexivity|].
  split; [reflexivity|]. split; [reflexivity|]. split; [reflexivity|].
  eapply (proj1 assessment_session_invariant
                "2026-01-01T00:00:00.000Z" None
                (toAssessment ++ [(7000, ChooseOption "withdraw")])).
  - vm_compute. reflexivity.
  - reflexivity.
Defined.

(** C3: the assessment showing an empty question set (the gateway answered
    with an empty array) has no current question; the handler called there
    throws, so it does not return silently. *)
Lemma handleAnswer_not_silent :
  exists st,
    run (toGenerating ++ [ (6000, QuestionsResolved []);
                            (6500, AssessmentTimerElapsed) ]) start = Some st /\
    state st = ASSESSMENT /\
    js_index (questions st) (currentQuestionIndex st) = None /\
    handleAnswer "regroup" 7000 st = (Throw undefinedRead, st) /\
    ~ silentWithoutQuestion.
Proof.
  eexists. split; [vm_compute; reflexivity|].
  split; [reflexivity|]. split; [reflexivity|]. split; [reflexivity|].
  intros H. specialize (H "regroup" 7000 (initial None) eq_refl).
  discriminate H.
Qed.

Lemma handleAnswer_without_question_witness :
  js_index (questions (initial None)) (currentQuestionIndex (initial None)) = None /\
  handleAnswer "regroup" 7000 (initial None) = (Throw undefinedRead, initial None).
Proof.
  split; [reflexivity|].
  apply (handleAnswer_without_question "regroup" 7000 (initial None)).
  reflexivity.
Defined.

(** C4: an analysis fails with both questions and both answers held; after
    the recovery a quick scan resolves with one question, and the assessment
    shows it as [QUERY 1/1] with no trace of the earlier session, as it does
    for the component with the session erased. *)
Lemma recovery_discards_session_witness :
  exists st,
    run toError start = Some st /\ state st = ERROR /\
    questions st = [q1; q2] /\
    map selectedOption (answers st) = ["withdraw"; "tested"] /\
    step 10000 RebootSystem st = Some (rebootSystem st) /\
    option_map observable (run afterRecovery (rebootSystem st)) =
    option_map observable (run afterRecovery (discardSession (rebootSystem st))) /\
    option_map render (run afterRecovery (rebootSystem st)) =
    Some (Normal (AssessmentScreen
            (mkAssessmentView
               (TerminalUI.mkBar "EVALUATION PROGRESS" 0 0)
               "QUERY 1/1" "Rules exist to be"
               ["followed"; "tested"; "rewritten"; "ignored"]))).
Proof.
  eexists. split; [vm_compute; reflexivity|].
  split; [reflexivity|]. split; [reflexivity|]. split; [reflexivity|].
  match goal with
  | |- step _ _ ?s = _ /\ _ =>
      destruct (recovery_discards_session 10000 s
                  ltac:(exists "2026-01-01T00:00:00.000Z", None, toError;
                        vm_compute; reflexivity)
                  eq_refl) as (_ & Hstep & _ & Hobs)
  end.
  split; [exact Hstep|]. split; [exact (Hobs afterRecovery)|].
  vm_compute. reflexivity.
Defined.

(** C5: typing [ab ] stores [AB ], of length 3; the button is enabled and
    the submission stays in AUTH. *)
Lemma login_blocked_at_length_3 :
  exists st st',
    run [(3500, BootElapsed); (4000, Change "ab ")] start = Some st /\
    state st = AUTH /\ username st = "AB " /\
    String.length (username st) = 3%nat /\
    submitDisabled st = false /\
    step 4100 SubmitLogin st = Some st' /\
    state st' = AUTH /\
    ~ loginByLength.
Proof.
  eexists. eexists. split; [vm_compute; reflexivity|].
  split; [reflexivity|]. split; [reflexivity|]. split; [reflexivity|].
  split; [reflexivity|]. split; [vm_compute; reflexivity|].
  split; [reflexivity|].
  intros H.
  destruct (H (set_username "AB " (set_state AUTH (initial None))) eq_refl)
    as [_ H3].
  specialize (H3 (le_n 3)). discriminate H3.
Qed.

Lemma login_guard_witness :
  let st := set_username "CIPHER9" (set_state AUTH (initial None)) in
  state st = AUTH /\ state (handleLogin st) = MENU /\
  step 4100 SubmitLogin st = Some (set_state MENU st).
Proof.
  intros st.
  destruct (login_guard st eq_refl)
    as (Hiff & _ & _ & _ & Hstep).
  split; [reflexivity|]. split.
  - apply Hiff. vm_compute. lia.
  - exact (Hstep 4100).
Defined.

Example menu_reached :
  run [(3500, BootElapsed); (4000, Change "cipher9"); (4100, SubmitLogin)] start
  = Some atMenu.
Proof. vm_compute. reflexivity. Qed.

Example generating_display :
  map Qred (progressTrace 5200 sampleDraws
                          (startAssessment 20 atMenu))
  = [5 # 2; 5 # 2; 1499 # 200; 1749 # 200]%Q.
Proof. vm_compute. reflexivity. Qed.

Example display_is_capped :
  map Qred (simulate 5 (88 # 1) [999 # 1000]) = [90 # 1]%Q.
Proof. vm_compute. reflexivity. Qed.

Lemma progress_monotone_capped_witness :
  rounding /\ pending atMenu = [] /\ Forall drawn sampleDraws /\
  Sorted Qle (0%Q :: progressTrace 5200 sampleDraws
                       (startAssessment 20 atMenu)) /\
  Sorted Qle (0%Q :: progressTrace 9150 sampleDraws
                       (finishAssessment [] atMenu)).
Proof.
  assert (Hd : Forall drawn sampleDraws).
  { unfold sampleDraws, drawn, Qle, Qlt. repeat constructor; simpl; lia. }
  split; [exact exact_rounding|]. split; [reflexivity|]. split; [exact Hd|].
  pose proof (progress_monotone_capped 5200 20 []
                sampleDraws atMenu exact_rounding eq_refl Hd) as H.
  pose proof (progress_monotone_capped 9150 20 []
                sampleDraws atMenu exact_rounding eq_refl Hd) as H'.
  cbv zeta in H, H'. split; [apply H | apply H'].
Defined.

(** C7, at a run: the generation of the run above is rejected with a value
    that has no message, and an analysis is rejected with
    [Error("timeout")]. *)
Lemma gateway_failure_message_witness :
  (exists st st',
     run toGenerating start = Some st /\ state st = GENERATING /\
     step 6000 (QuestionsRejected (mkError "Error" None)) st = Some st' /\
     state st' = ERROR /\
     errorMsg st' = "CONNECTION FAILED: UNKNOWN ERROR") /\
  (exists st st',
     run (toAssessment ++ [ (7000, ChooseOption "withdraw");
                             (9000, ChooseOption "tested") ]) start = Some st /\
     state st = ANALYZING /\
     step 9500 (AnalysisRejected (Error "timeout")) st = Some st' /\
     state st' = ERROR /\
     errorMsg st' = "ANALYSIS FAILED: timeout").
Proof.
  split.
  - eexists.
    match goal with
    | |- exists st', ?R = Some ?st /\ _ =>
        let r := eval vm_compute in R in
        match r with
        | Some ?s =>
            destruct (proj1 (gateway_failure_message
                               6000 (mkError "Error" None) s)
                            20 [Interval 200 5%Q] eq_refl)
              as (st' & H1 & H2 & H3);
            exists st'; split; [vm_compute; reflexivity|]
        end
    end.
    split; [reflexivity|]. split; [exact H1|]. split; [exact H2 | exact H3].
  - eexists.
    match goal with
    | |- exists st', ?R = Some ?st /\ _ =>
        let r := eval vm_compute in R in
        match r with
        | Some ?s =>
            destruct (proj2 (gateway_failure_message
                               9500 (Error "timeout") s)
                            _ _ _ [Interval 150 2%Q] eq_refl)
              as (st' & H1 & H2 & _ & H3);
            exists st'; split; [vm_compute; reflexivity|]
        end
    end.
    split; [reflexivity|]. split; [exact H1|]. split; [exact H2|].
    exact (H3 eq_refl).
Defined.

(** C10, at a run: a rejected generation from the menu. *)
Lemma generation_failure_is_atomic_witness :
  exists st',
    run ((5000, SelectScan SHORT)
            :: tickEvents [(5200, 1 # 2); (5400, 9 # 10)]
            ++ [(6000, QuestionsRejected (Error "quota"))]) atMenu = Some st' /\
    state st' = ERROR /\
    errorMsg st' = "CONNECTION FAILED: quota" /\
    questions st' = questions atMenu /\
    answers st' = answers atMenu /\
    currentQuestionIndex st' = currentQuestionIndex atMenu /\
    leaderboard st' = leaderboard atMenu /\
    storage st' = storage atMenu.
Proof.
  eexists. split; [vm_compute; reflexivity|].
  split; [reflexivity|]. split; [reflexivity|].
  eapply (generation_failure_is_atomic
            5000 SHORT [(5200, 1 # 2); (5400, 9 # 10)] 6000 (Error "quota")
            atMenu).
  vm_compute. reflexivity.
Defined.

(** C2: asked for 20 questions, the model answers with one question of two
    options, which the response schema allows; the operation resolves with
    exactly that. *)
Lemma generation_is_unchecked :
  exists v q,
    generateAssessmentQuestions (Some "key") (answering shortReply) parse 20
      = Normal v /\
    conforms questionSchema v = true /\
    asQuestions v = Some [q] /\
    q_options q = ["followed"; "tested"] /\
    ~ generationYieldsCount (Some "key") (answering shortReply) parse.
Proof.
  eexists. eexists. split; [vm_compute; reflexivity|].
  split; [reflexivity|]. split; [reflexivity|]. split; [reflexivity|].
  intros H.
  destruct (H 20 _ (or_introl eq_refl) eq_refl) as (qs & Hqs & Hlen & _).
  vm_compute in Hqs. injection Hqs as <-. discriminate Hlen.
Qed.

Lemma generation_returns_payload_witness :
  exists v,
    parse shortReply = Normal v /\
    generateAssessmentQuestions (Some "key") (answering shortReply) parse 20
      = Normal v.
Proof.
  eexists. split; [vm_compute; reflexivity|].
  apply (proj2 (generation_returns_payload (Some "key") (answering shortReply)
                  parse 20 _)).
  exists "key", shortReply.
  repeat split; try discriminate.
Defined.

Example generation_request :
  contents (questionRequest 20) = "Generate 20 psychological assessment questions.".
Proof. reflexivity. Qed.

Example empty_text_is_a_failure :
  generateAssessmentQuestions (Some "key") (answering "") parse 20
  = Throw (Error "No data received from construct.") /\
  generateAssessmentQuestions None (answering shortReply) parse 20
  = Throw (Error "API_KEY not found in environment.") /\
  generateAssessmentQuestions (Some "key") (answering "[1,") parse 20
  = Throw syntaxError.
Proof. repeat split. Qed.

Example analysis_input :
  stringify (inputRows oneAnswer)
  = ("[{" ++ quoted "dimension" ++ ":" ++ quoted "Stress Resilience" ++ ","
     ++ quoted "question" ++ ":" ++ quoted "When plans collapse, you" ++ ","
     ++ quoted "choice" ++ ":" ++ quoted "withdraw" ++ ","
     ++ quoted "timeTakenMs" ++ ":500}]")%string.
Proof. reflexivity. Qed.

(** C9, at a run: the payload's own [subjectName] and [generatedAt] are
    overwritten, its [score] is kept. *)
Lemma analysis_attaches_subject_witness :
  exists r props,
    analyzePersonality (Some "key") (answering intrudingReply) parse stringify
                       "2026-01-01T00:00:09.500Z" oneAnswer "CIPHER9"
      = Normal r /\
    r = JObject props /\
    lookup "subjectName" props = Some (JString "CIPHER9") /\
    lookup "generatedAt" props = Some (JString "2026-01-01T00:00:09.500Z") /\
    lookup "score" props = Some (JNumber 7).
Proof.
  destruct (analysis_attaches_subject (Some "key") (answering intrudingReply)
              parse stringify "2026-01-01T00:00:09.500Z" oneAnswer "CIPHER9"
              (JObject [("score", JNumber 7);
                        ("subjectName", JString "CIPHER9");
                        ("generatedAt", JString "2026-01-01T00:00:09.500Z")])
              eq_refl)
    as (props & analysis & Hr & Hs & Hg & _).
  eexists. exists props. split; [vm_compute; reflexivity|].
  split; [exact Hr|]. split; [exact Hs|]. split; [exact Hg|].
  injection Hr as <-. reflexivity.
Defined.

(** *** The further properties, at runs *)

Ltac reached evs :=
  exists "2026-01-01T00:00:00.000Z", None, evs; vm_compute; reflexivity.

Lemma reload_shows_stored_board_witness :
  exists st,
    run toResult start = Some st /\
    map lb_username (leaderboard (mount "2026-02-02T00:00:00.000Z"
                                        (initial (storage st))))
      = ["GHOST_01"; "NEXUS"; "CIPHER9"; "CIPHER"].
Proof.
  eexists. split; [vm_compute; reflexivity|].
  rewrite (proj1 (reload_shows_stored_board "2026-02-02T00:00:00.000Z" _
                    ltac:(reached toResult))).
  reflexivity.
Defined.

Lemma boardStored_reachable_witness :
  exists st,
    validStorage None /\ run toResult start = Some st /\ boardStored st.
Proof.
  eexists. split; [exact I|]. split; [vm_compute; reflexivity|].
  apply (boardStored_reachable "2026-01-01T00:00:00.000Z" None toResult _ I).
  vm_compute. reflexivity.
Defined.

Lemma analysis_is_recorded_witness :
  exists st st',
    run toAnalyzing start = Some st /\
    step 9500 (AnalysisResolved sampleReport "k3x9q0zr1"
                 "2026-01-01T00:00:09.500Z") st = Some st' /\
    map lb_score (leaderboard st') = [98; 92; 92; 85] /\
    storage st' = Some (leaderboard st').
Proof.
  eexists. eexists. split; [vm_compute; reflexivity|].
  split; [vm_compute; reflexivity|].
  match goal with
  | |- context [leaderboard ?s'] =>
      destruct (analysis_is_recorded 9500 sampleReport "k3x9q0zr1"
                  "2026-01-01T00:00:09.500Z" _ s'
                  ltac:(reached toAnalyzing) eq_refl) as (H1 & H2 & _)
  end.
  split; [reflexivity | exact H2].
Defined.

Lemma outstanding_work_matches_view_witness :
  exists st,
    run toGenerating start = Some st /\ state st = GENERATING /\
    List.length (filter isCall (pending st)) = 1%nat /\
    existsb isInterval (pending st) = existsb isCall (pending st).
Proof.
  eexists. split; [vm_compute; reflexivity|].
  split; [reflexivity|]. split; [reflexivity|].
  apply (outstanding_work_matches_view _ ltac:(reached toGenerating)).
Defined.

Lemma stuck_only_without_options_witness :
  exists st,
    run toEmptyAssessment start = Some st /\
    state st = ASSESSMENT /\ questions st = [] /\
    forall now ev, step now ev st = None.
Proof.
  eexists. split; [vm_compute; reflexivity|].
  split; [reflexivity|]. split; [reflexivity|].
  apply (proj2 (stuck_only_without_options _ ltac:(reached toEmptyAssessment))).
  split; [reflexivity | exact I].
Defined.

Lemma answers_follow_questions_witness :
  exists st,
    run toAnalyzing start = Some st /\
    In (AnalyzeCall twoAnswers "CIPHER9" (leaderboard start)) (pending st) /\
    Forall2 answered twoAnswers (questions st).
Proof.
  eexists. split; [vm_compute; reflexivity|].
  split; [right; left; reflexivity|].
  apply (proj2 (proj2 (answers_follow_questions _ ltac:(reached toAnalyzing)))
               twoAnswers "CIPHER9" (leaderboard start)).
  right. left. reflexivity.
Defined.

Lemma elapsed_times_nonnegative_witness :
  exists st,
    ordered 0 toAnalyzing /\ run toAnalyzing start = Some st /\
    Forall (fun a => 0 <= timeTaken a) (answers st).
Proof.
  assert (Ho : ordered 0 toAnalyzing) by (simpl; lia).
  eexists. split; [exact Ho|]. split; [vm_compute; reflexivity|].
  apply (elapsed_times_nonnegative 0 "2026-01-01T00:00:00.000Z" None
           toAnalyzing _ Ho).
  vm_compute. reflexivity.
Defined.

Lemma logged_in_username_witness :
  exists st,
    run toAssessment start = Some st /\ state st = ASSESSMENT /\
    (3 <= String.length (Text.trim (username st)))%nat.
Proof.
  eexists. split; [vm_compute; reflexivity|]. split; [reflexivity|].
  apply (logged_in_username _ ltac:(reached toAssessment));
    simpl; discriminate.
Defined.

Lemma error_view_is_worded_witness :
  exists st,
    run toError start = Some st /\ state st = ERROR /\
    errorWorded (errorMsg st) /\
    step 10000 RebootSystem st = Some (set_state MENU st).
Proof.
  eexists. split; [vm_compute; reflexivity|]. split; [reflexivity|].
  destruct (error_view_is_worded _ ltac:(reached toError) eq_refl) as [Hw Hb].
  split; [exact Hw | exact (Hb 10000)].
Defined.

Lemma loading_display_in_range_witness :
  exists st,
    rounding /\ run toGenerating start = Some st /\
    (loadingProgress st <= 90)%Q /\
    (TerminalUI.width (renderLoading "GENERATING NEURAL PATHWAYS..." st)
     == loadingProgress st)%Q.
Proof.
  eexists. split; [exact exact_rounding|]. split; [vm_compute; reflexivity|].
  destruct (loading_display_in_range "GENERATING NEURAL PATHWAYS..." _
              exact_rounding ltac:(reached toGenerating))
    as (_ & Hw & _ & H90).
  split; [exact (H90 eq_refl) | exact Hw].
Defined.

Lemma assessment_view_renders_witness :
  exists st v,
    run toAssessment start = Some st /\ state st = ASSESSMENT /\
    renderAssessment st = Normal (Some v) /\
    title v = "QUERY 1/2" /\ TerminalUI.percent (bar v) = 0 /\
    buttons v = ["regroup"; "withdraw"; "improvise"; "delegate"].
Proof.
  eexists. eexists. split; [vm_compute; reflexivity|]. split; [reflexivity|].
  destruct (assessment_view_renders _ ltac:(reached toAssessment) eq_refl)
    as [[Hq _]|(q & v & Hq & Hv & _)]; [discriminate Hq|].
  split; [vm_compute; reflexivity|]. repeat split.
Defined.

Lemma gateway_errors_as_shown_witness :
  exists st,
    run toGenerating start = Some st /\
    exists st',
      step 6000 (QuestionsRejected (Error "API_KEY not found in environment."))
           st = Some st' /\
      errorMsg st' = "CONNECTION FAILED: API_KEY not found in environment.".
Proof.
  eexists. split; [vm_compute; reflexivity|].
  match goal with
  | |- context [step _ _ ?s] =>
      destruct (proj1 (gateway_errors_as_shown None (answering shortReply) parse
                         stringify "" "" "" 6000 s)
                      20 [Interval 200 5%Q] (mkResponse None) eq_refl
                      (or_introl (or_introl eq_refl)))
        as (ev & st' & Hev & Hstep & _ & Hmsg)
  end.
  injection Hev as <-. exists st'. split; [exact Hstep | exact Hmsg].
Defined.

Lemma dossier_is_the_sessions_witness :
  exists st,
    run toAnalyzing start = Some st /\
    exists st' rep,
      step 9500 (AnalysisResolved rep "k3x9q0zr1" "2026-01-01T00:00:09.500Z")
           st = Some st' /\
      report st' = Some rep /\ subjectName rep = "CIPHER9" /\ score rep = 92 /\
      generatedAt rep = "2026-01-01T00:00:09.400Z" /\
      map lb_username (leaderboard st')
        = ["GHOST_01"; "NEXUS"; "CIPHER9"; "CIPHER"].
Proof.
  eexists. split; [vm_compute; reflexivity|].
  match goal with
  | |- context [step _ _ ?s] =>
      edestruct (dossier_is_the_sessions (Some "key") (answering fullReply)
                   parse stringify "2026-01-01T00:00:09.400Z" "k3x9q0zr1"
                   "2026-01-01T00:00:09.500Z" 9500 s)
        as (rep & rawText & analysis & _ & _ & _ & Hrep & _);
        [ reached toAnalyzing
        | right; left; reflexivity
        | vm_compute; reflexivity
        | vm_compute; reflexivity
        | vm_compute; reflexivity
        | ]
  end.
  vm_compute in Hrep. injection Hrep as Hrep.
  eexists. exists rep. subst rep. split; [vm_compute; reflexivity|].
  repeat split; vm_compute; reflexivity.
Defined.

Lemma settling_stops_the_interval_witness :
  exists st,
    run toGenerating start = Some st /\
    exists st',
      step 6000 (QuestionsResolved [q1; q2]) st = Some st' /\
      pending st' = [AssessmentTimer] /\
      step 6200 (Tick (1 # 2)) st' = None /\
      loadingProgress st' = 100%Q.
Proof.
  eexists. split; [vm_compute; reflexivity|].
  eexists. split; [vm_compute; reflexivity|]. split; [reflexivity|].
  match goal with
  | |- context [step _ _ ?s'] =>
      destruct (settling_stops_the_interval 6000 (QuestionsResolved [q1; q2])
                  _ s' ltac:(reached toGenerating) eq_refl eq_refl)
        as (_ & Hdead & Hfull)
  end.
  split; [exact (Hdead 6200 (1 # 2)) | exact Hfull].
Defined.

Lemma no_user_action_while_busy_witness :
  exists st,
    run toGenerating start = Some st /\ pending st <> [] /\
    step 5600 (SelectScan FULL) st = None /\
    step 5600 RebootSystem st = None.
Proof.
  eexists. split; [vm_compute; reflexivity|].
  split; [discriminate|].
  split;
    apply (no_user_action_while_busy 5600 _ _ ltac:(reached toGenerating));
    (discriminate || reflexivity).
Defined.

End Runs.
